(** * Voicebot backend: session store, audio cache and request orchestration

    A shallow embedding of the Python services
    [app/services/conversation_manager.py], [app/services/tts_service.py],
    [app/services/openai_service.py] and of the request handlers in
    [app/routes/chat.py] and [app/routes/voice.py], followed by the
    properties of the specification that were checked against them.

    Conventions of the embedding:
    - Python [int] is [Z]; [str] is [string]; [bytes] is [list byte].
    - [datetime] values are [Z] microseconds; a [timedelta] of [n] seconds
      is [n * 1000000].
    - A coroutine is a function in the monad [M], which threads the
      process state ([World]) and may end in a Python exception.
      A raised exception keeps the state reached so far: nothing is rolled
      back.
    - The outside world (clock, UUID generator, the AI provider) is part of
      [World] as oracles that are read in order. *)

From stdpp Require Import base functions gmap strings pretty list.
From Stdlib Require Import ZArith Lia Strings.Byte Strings.Ascii.
Local Open Scope Z_scope.

(** ** Python values used by the handlers *)

Definition bytes := list byte.

Definition byte_to_Z (b : byte) : Z := Z.of_N (Byte.to_N b).

Definition byte_of_Z (z : Z) : byte :=
  default Byte.x00 (Byte.of_N (Z.to_N (z mod 256))).

(** [str.encode()]: the strings of the model already are UTF-8 byte
    sequences. *)
Definition encode (s : string) : bytes := String.list_byte_of_string s.

(** [l[start:]] with Python's treatment of negative and out-of-range
    starts.  Note that [l[-0:]] is [l[0:]], the whole list. *)
Definition py_slice_from {A} (start : Z) (l : list A) : list A :=
  let n := Z.of_nat (length l) in
  let first := if start <? 0 then Z.max (start + n) 0 else Z.min start n in
  drop (Z.to_nat first) l.

(** [s.lower()] on ASCII letters. *)
Definition ascii_lower (c : ascii) : ascii :=
  let n := N_of_ascii c in
  if ((65 <=? n) && (n <=? 90))%N then ascii_of_N (n + 32) else c.

Fixpoint lower (s : string) : string :=
  match s with
  | EmptyString => EmptyString
  | String c rest => String (ascii_lower c) (lower rest)
  end.

(** [s.endswith(suffix)] and its tuple form. *)
Definition endswith (s suffix : string) : bool :=
  let n := String.length s in
  let k := String.length suffix in
  (k <=? n)%nat && String.eqb (String.substring (n - k) k s) suffix.

Definition endswith_any (s : string) (suffixes : list string) : bool :=
  existsb (endswith s) suffixes.

(** Truthiness of an [Optional[str]]: [None] and the empty string are
    falsy. *)
Definition truthy (o : option string) : bool :=
  match o with
  | None => false
  | Some s => negb (String.eqb s "")
  end.

(** [a or b] for an optional string and a string default. *)
Definition or_default (o : option string) (d : string) : string :=
  match o with
  | Some s => if String.eqb s "" then d else s
  | None => d
  end.

(** ** [hashlib.md5(...).hexdigest()] *)

Definition wrap32 (z : Z) : Z := z mod 2 ^ 32.

Definition rotl32 (x : Z) (c : Z) : Z :=
  wrap32 (Z.lor (Z.shiftl x c) (Z.shiftr x (32 - c))).

Definition not32 (x : Z) : Z := Z.lxor x (2 ^ 32 - 1).

Definition md5_K : list Z :=
  [3614090360; 3905402710; 606105819; 3250441966;
   4118548399; 1200080426; 2821735955; 4249261313;
   1770035416; 2336552879; 4294925233; 2304563134;
   1804603682; 4254626195; 2792965006; 1236535329;
   4129170786; 3225465664; 643717713; 3921069994;
   3593408605; 38016083; 3634488961; 3889429448;
   568446438; 3275163606; 4107603335; 1163531501;
   2850285829; 4243563512; 1735328473; 2368359562;
   4294588738; 2272392833; 1839030562; 4259657740;
   2763975236; 1272893353; 4139469664; 3200236656;
   681279174; 3936430074; 3572445317; 76029189;
   3654602809; 3873151461; 530742520; 3299628645;
   4096336452; 1126891415; 2878612391; 4237533241;
   1700485571; 2399980690; 4293915773; 2240044497;
   1873313359; 4264355552; 2734768916; 1309151649;
   4149444226; 3174756917; 718787259; 3951481745].

Definition md5_S : list Z :=
  [7; 12; 17; 22; 7; 12; 17; 22; 7; 12; 17; 22; 7; 12; 17; 22;
   5; 9; 14; 20; 5; 9; 14; 20; 5; 9; 14; 20; 5; 9; 14; 20;
   4; 11; 16; 23; 4; 11; 16; 23; 4; 11; 16; 23; 4; 11; 16; 23;
   6; 10; 15; 21; 6; 10; 15; 21; 6; 10; 15; 21; 6; 10; 15; 21].

Definition md5_state : Type := Z * Z * Z * Z.

Definition md5_init : md5_state :=
  (1732584193, 4023233417, 2562383102, 271733878).

Definition md5_round (M : list Z) (st : md5_state) (i : nat) : md5_state :=
  let '(A, B, C, D) := st in
  let iz := Z.of_nat i in
  let '(F, g) :=
    if iz <? 16 then (Z.lor (Z.land B C) (Z.land (not32 B) D), iz)
    else if iz <? 32 then
      (Z.lor (Z.land D B) (Z.land (not32 D) C), (5 * iz + 1) mod 16)
    else if iz <? 48 then (Z.lxor (Z.lxor B C) D, (3 * iz + 5) mod 16)
    else (Z.lxor C (Z.lor B (not32 D)), (7 * iz) mod 16) in
  let F' := wrap32 (F + A + md5_K !!! i + M !!! Z.to_nat g) in
  (D, wrap32 (B + rotl32 F' (md5_S !!! i)), B, C).

Definition le_word (bs : list Z) : Z :=
  foldr (fun b acc => b + 256 * acc) 0 bs.

Fixpoint md5_words (n : nat) (bs : list Z) : list Z :=
  match n with
  | O => []
  | S n' => le_word (take 4 bs) :: md5_words n' (drop 4 bs)
  end.

Definition md5_chunk (st : md5_state) (chunk : list Z) : md5_state :=
  let M := md5_words 16 chunk in
  let '(A, B, C, D) := foldl (md5_round M) st (seq 0 64) in
  let '(a0, b0, c0, d0) := st in
  (wrap32 (a0 + A), wrap32 (b0 + B), wrap32 (c0 + C), wrap32 (d0 + D)).

Fixpoint le_bytes (n : nat) (z : Z) : list Z :=
  match n with
  | O => []
  | S n' => z mod 256 :: le_bytes n' (z / 256)
  end.

Definition md5_pad (msg : list Z) : list Z :=
  let len := Z.of_nat (length msg) in
  let zeros := Z.to_nat ((55 - len) mod 64) in
  msg ++ [128] ++ replicate zeros 0 ++ le_bytes 8 (8 * len).

Fixpoint md5_chunks (n : nat) (st : md5_state) (bs : list Z) : md5_state :=
  match n with
  | O => st
  | S n' => md5_chunks n' (md5_chunk st (take 64 bs)) (drop 64 bs)
  end.

Definition md5_digest (msg : bytes) : bytes :=
  let padded := md5_pad (map byte_to_Z msg) in
  let '(a, b, c, d) := md5_chunks (length padded / 64) md5_init padded in
  map byte_of_Z (le_bytes 4 a ++ le_bytes 4 b ++ le_bytes 4 c ++ le_bytes 4 d).

Definition hex_digit (z : Z) : ascii :=
  if z <? 10 then ascii_of_N (Z.to_N (48 + z)) else ascii_of_N (Z.to_N (87 + z)).

Fixpoint hexdigest (bs : bytes) : string :=
  match bs with
  | [] => EmptyString
  | b :: rest =>
      String (hex_digit (byte_to_Z b / 16))
        (String (hex_digit (byte_to_Z b mod 16)) (hexdigest rest))
  end.

Definition md5_hexdigest (msg : bytes) : string := hexdigest (md5_digest msg).

(** ** [base64.b64encode(...).decode("ascii")] *)

Definition b64_alphabet : string :=
  "ABCDEFGHIJKLMNOPQRSTUVWXYZabcdefghijklmnopqrstuvwxyz0123456789+/".

Definition b64_char (z : Z) : ascii :=
  default "="%char (String.get (Z.to_nat z) b64_alphabet).

Fixpoint b64encode_aux (fuel : nat) (bs : list Z) : string :=
  match fuel with
  | O => EmptyString
  | S fuel' =>
      match bs with
      | [] => EmptyString
      | [a] =>
          String (b64_char (a / 4)) (String (b64_char ((a mod 4) * 16)) "==")
      | [a; b] =>
          String (b64_char (a / 4))
            (String (b64_char ((a mod 4) * 16 + b / 16))
               (String (b64_char ((b mod 16) * 4)) "="))
      | a :: b :: c :: rest =>
          String (b64_char (a / 4))
            (String (b64_char ((a mod 4) * 16 + b / 16))
               (String (b64_char ((b mod 16) * 4 + c / 64))
                  (String (b64_char (c mod 64)) (b64encode_aux fuel' rest))))
      end
  end.

Definition b64encode (bs : bytes) : string :=
  b64encode_aux (S (length bs)) (map byte_to_Z bs).

(** ** Exceptions and results *)

Inductive exn :=
  | IndexError (msg : string)
  | TypeError (msg : string)
  | AttributeError (msg : string)
  | OpenAIError (msg : string)
  | ValidationError (msg : string)
  | LockHeld
  | HTTPException (status_code : Z) (detail : string).

(** [str(e)] as the handlers interpolate it into their error details. *)
Definition exn_str (e : exn) : string :=
  match e with
  | IndexError msg | TypeError msg | AttributeError msg | OpenAIError msg
  | ValidationError msg => msg
  | LockHeld => "lock held"
  | HTTPException _ detail => detail
  end.

Inductive result (A : Type) :=
  | Ok (a : A)
  | Raise (e : exn).
Arguments Ok {A} a.
Arguments Raise {A} e.

(** ** [app/config.py]: the settings read by the modelled code *)

Record Settings := {
  openai_model : string;
  openai_tts_model : string;
  openai_tts_voice : string;
  openai_whisper_model : string;
  openai_max_tokens : Z;
  openai_timeout_seconds : Z;
  max_conversation_length : Z;
  session_timeout_seconds : Z;
  max_audio_file_size_mb : Z
}.

Definition default_settings : Settings := {|
  openai_model := "gpt-4o-mini";
  openai_tts_model := "tts-1";
  openai_tts_voice := "alloy";
  openai_whisper_model := "whisper-1";
  openai_max_tokens := 1000;
  openai_timeout_seconds := 30;
  max_conversation_length := 20;
  session_timeout_seconds := 3600;
  max_audio_file_size_mb := 25
|}.

Definition max_audio_file_size_bytes (s : Settings) : Z :=
  max_audio_file_size_mb s * 1024 * 1024.

(** ** Messages, sessions and the provider boundary *)

Record message := { role : string; content : string }.

(** A session dictionary.  Sessions are Python objects: the registry and
    the local variables of a coroutine hold references to them. *)
Record session := {
  messages : list message;
  created_at : Z;
  last_activity : Z;
  message_count : Z
}.

Abbreviation loc := nat (only parsing).

(** What a reference to no live object reads as; the registry never holds
    one. *)
Definition dead_session : session :=
  {| messages := []; created_at := 0; last_activity := 0; message_count := 0 |}.

#[global] Instance session_inhabited : Inhabited session := populate dead_session.

Record completion := {
  completion_content : string;
  tokens_used : Z;
  completion_model : string;
  finish_reason : string
}.

(** Requests sent to the provider.  The speed of a speech request is a
    decimal with two places, in hundredths: 1.25 is [125]. *)
Inductive provider_call :=
  | ChatCompletionsCreate (model : string) (msgs : list message) (max_tokens : Z)
  | TranscriptionsCreate (model : string) (file : bytes) (name : string)
  | SpeechCreate (model voice input : string) (speed : Z).

(** The provider answers the [n]-th request of the process; an answer can
    be an error (time-out, authentication, rate limit). *)
Record Provider := {
  answer_chat : nat -> provider_call -> result completion;
  answer_transcription : nat -> provider_call -> result string;
  answer_speech : nat -> provider_call -> result bytes
}.

(** ** The process state *)

Record World := {
  settings : Settings;
  (* app/prompts/system_prompt.py: the persona text, opaque here *)
  SYSTEM_PROMPT : string;
  (* conversation_manager *)
  sessions : gmap string loc;
  heap : gmap loc session;
  next_loc : loc;
  session_lock : bool;
  (* tts_service: the files of temp_audio/, by file name *)
  temp_audio : gmap string bytes;
  (* environment *)
  clock : nat -> Z;
  ticks : nat;
  uuid4 : nat -> string;
  uuids : nat;
  provider : Provider;
  provider_calls : list provider_call
}.

Definition set_sessions (f : gmap string loc -> gmap string loc) (w : World) : World :=
  {| settings := settings w; SYSTEM_PROMPT := SYSTEM_PROMPT w;
     sessions := f (sessions w); heap := heap w;
     next_loc := next_loc w; session_lock := session_lock w;
     temp_audio := temp_audio w; clock := clock w; ticks := ticks w;
     uuid4 := uuid4 w; uuids := uuids w; provider := provider w;
     provider_calls := provider_calls w |}.

Definition set_heap (f : gmap loc session -> gmap loc session) (w : World) : World :=
  {| settings := settings w; SYSTEM_PROMPT := SYSTEM_PROMPT w;
     sessions := sessions w; heap := f (heap w);
     next_loc := next_loc w; session_lock := session_lock w;
     temp_audio := temp_audio w; clock := clock w; ticks := ticks w;
     uuid4 := uuid4 w; uuids := uuids w; provider := provider w;
     provider_calls := provider_calls w |}.

Definition set_next_loc (n : loc) (w : World) : World :=
  {| settings := settings w; SYSTEM_PROMPT := SYSTEM_PROMPT w;
     sessions := sessions w; heap := heap w;
     next_loc := n; session_lock := session_lock w;
     temp_audio := temp_audio w; clock := clock w; ticks := ticks w;
     uuid4 := uuid4 w; uuids := uuids w; provider := provider w;
     provider_calls := provider_calls w |}.

Definition set_session_lock (b : bool) (w : World) : World :=
  {| settings := settings w; SYSTEM_PROMPT := SYSTEM_PROMPT w;
     sessions := sessions w; heap := heap w;
     next_loc := next_loc w; session_lock := b;
     temp_audio := temp_audio w; clock := clock w; ticks := ticks w;
     uuid4 := uuid4 w; uuids := uuids w; provider := provider w;
     provider_calls := provider_calls w |}.

Definition set_temp_audio (f : gmap string bytes -> gmap string bytes) (w : World) : World :=
  {| settings := settings w; SYSTEM_PROMPT := SYSTEM_PROMPT w;
     sessions := sessions w; heap := heap w;
     next_loc := next_loc w; session_lock := session_lock w;
     temp_audio := f (temp_audio w); clock := clock w; ticks := ticks w;
     uuid4 := uuid4 w; uuids := uuids w; provider := provider w;
     provider_calls := provider_calls w |}.

Definition set_ticks (n : nat) (w : World) : World :=
  {| settings := settings w; SYSTEM_PROMPT := SYSTEM_PROMPT w;
     sessions := sessions w; heap := heap w;
     next_loc := next_loc w; session_lock := session_lock w;
     temp_audio := temp_audio w; clock := clock w; ticks := n;
     uuid4 := uuid4 w; uuids := uuids w; provider := provider w;
     provider_calls := provider_calls w |}.

Definition set_uuids (n : nat) (w : World) : World :=
  {| settings := settings w; SYSTEM_PROMPT := SYSTEM_PROMPT w;
     sessions := sessions w; heap := heap w;
     next_loc := next_loc w; session_lock := session_lock w;
     temp_audio := temp_audio w; clock := clock w; ticks := ticks w;
     uuid4 := uuid4 w; uuids := n; provider := provider w;
     provider_calls := provider_calls w |}.

Definition set_provider_calls (l : list provider_call) (w : World) : World :=
  {| settings := settings w; SYSTEM_PROMPT := SYSTEM_PROMPT w;
     sessions := sessions w; heap := heap w;
     next_loc := next_loc w; session_lock := session_lock w;
     temp_audio := temp_audio w; clock := clock w; ticks := ticks w;
     uuid4 := uuid4 w; uuids := uuids w; provider := provider w;
     provider_calls := l |}.

(** ** The monad of coroutines *)

Definition M (A : Type) : Type := World -> result A * World.

Definition ret {A} (a : A) : M A := fun w => (Ok a, w).

Definition raise {A} (e : exn) : M A := fun w => (Raise e, w).

Definition bind {A B} (m : M A) (k : A -> M B) : M B :=
  fun w =>
    match m w with
    | (Ok a, w') => k a w'
    | (Raise e, w') => (Raise e, w')
    end.

Notation "'let*' x := m 'in' k" := (bind m (fun x => k))
  (at level 10, x name, m at level 100, k at level 200).
Notation "m >> k" := (bind m (fun _ => k))
  (at level 90, right associativity).

(** [try: body except Exception as e: handler e]. *)
Definition try_except {A} (body : M A) (handler : exn -> M A) : M A :=
  fun w =>
    match body w with
    | (Ok a, w') => (Ok a, w')
    | (Raise e, w') => handler e w'
    end.

Definition read {A} (f : World -> A) : M A := fun w => (Ok (f w), w).

Definition modify (f : World -> World) : M unit := fun w => (Ok tt, f w).

(** [datetime.utcnow()]. *)
Definition utcnow : M Z :=
  fun w => (Ok (clock w (ticks w)), set_ticks (S (ticks w)) w).

(** [str(uuid.uuid4())]. *)
Definition new_uuid : M string :=
  fun w => (Ok (uuid4 w (uuids w)), set_uuids (S (uuids w)) w).

(** [async with self.session_lock: body].  The lock is released when the
    body raises.  A coroutine that finds the lock held would suspend; in
    this sequential reading that is reported as [LockHeld]. *)
Definition with_session_lock {A} (body : M A) : M A :=
  fun w =>
    if session_lock w then (Raise LockHeld, w)
    else
      match body (set_session_lock true w) with
      | (r, w') => (r, set_session_lock false w')
      end.

(** ** [app/services/conversation_manager.py] *)

Module conversation_manager.

Definition get_system_prompt : M string := read SYSTEM_PROMPT.

(** Allocation of a fresh session object. *)
Definition alloc (s : session) : M loc :=
  fun w =>
    (Ok (next_loc w),
     set_next_loc (S (next_loc w)) (set_heap (fun h => <[next_loc w := s]> h) w)).

(** In-place updates of the session object behind a reference. *)
Definition set_messages (msgs : list message) (s : session) : session :=
  {| messages := msgs; created_at := created_at s;
     last_activity := last_activity s; message_count := message_count s |}.

Definition set_last_activity (t : Z) (s : session) : session :=
  {| messages := messages s; created_at := created_at s;
     last_activity := t; message_count := message_count s |}.

Definition set_message_count (n : Z) (s : session) : session :=
  {| messages := messages s; created_at := created_at s;
     last_activity := last_activity s; message_count := n |}.

Definition update_session (ref : loc) (f : session -> session) : M unit :=
  modify (set_heap (fun h => <[ref := f (h !!! ref)]> h)).

Definition _create_session_data : M session :=
  let* prompt := get_system_prompt in
  let* t_created := utcnow in
  let* t_active := utcnow in
  ret {| messages := [ {| role := "system"; content := prompt |} ];
         created_at := t_created;
         last_activity := t_active;
         message_count := 0 |}.

Definition create_session : M string :=
  let* session_id := new_uuid in
  with_session_lock
    (let* data := _create_session_data in
     let* ref := alloc data in
     modify (set_sessions (fun m => <[session_id := ref]> m))) >>
  ret session_id.

Definition _is_session_expired (session : loc) : M bool :=
  let* timeout := read (fun w => session_timeout_seconds (settings w) * 1000000) in
  let* now := utcnow in
  let* last := read (fun w => last_activity (heap w !!! session)) in
  ret (now - last >? timeout).

Definition get_session (session_id : string) : M (option loc) :=
  with_session_lock
    (let* found := read (fun w => sessions w !! session_id) in
     match found with
     | None => ret None
     | Some session =>
         let* expired := _is_session_expired session in
         if expired then
           modify (set_sessions (fun m => delete session_id m)) >> ret None
         else ret (Some session)
     end).

Definition _trim_conversation_history (session_id : string) : M unit :=
  let* found := read (fun w => sessions w !! session_id) in
  match found with
  | None => ret tt
  | Some session =>
      let* msgs := read (fun w => messages (heap w !!! session)) in
      let* max_length := read (fun w => max_conversation_length (settings w)) in
      if Z.of_nat (length msgs) >? max_length + 1 then
        match msgs with
        | [] => raise (IndexError "list index out of range")
        | system_message :: _ =>
            let recent_messages := py_slice_from (- max_length) msgs in
            update_session session (set_messages (system_message :: recent_messages))
        end
      else ret tt
  end.

(** The second lock section of [add_message]: it works on the session
    object that the lookup returned. *)
Definition add_message_locked (session : loc) (session_id role content : string)
    : M unit :=
  with_session_lock
    (update_session session
       (fun s => set_messages (messages s ++ [ {| role := role; content := content |} ]) s) >>
     let* now := utcnow in
     update_session session (set_last_activity now) >>
     update_session session (fun s => set_message_count (message_count s + 1) s) >>
     _trim_conversation_history session_id).

Definition add_message (session_id role content : string) : M bool :=
  let* found := get_session session_id in
  match found with
  | None => ret false
  | Some session =>
      add_message_locked session session_id role content >> ret true
  end.

(** The caller receives the message list of the session; the handlers
    only read it before their next call into the manager. *)
Definition get_messages (session_id : string) : M (option (list message)) :=
  let* found := get_session session_id in
  match found with
  | None => ret None
  | Some session => read (fun w => Some (messages (heap w !!! session)))
  end.

Definition delete_session (session_id : string) : M bool :=
  with_session_lock
    (let* found := read (fun w => sessions w !! session_id) in
     match found with
     | Some _ => modify (set_sessions (fun m => delete session_id m)) >> ret true
     | None => ret false
     end).

Fixpoint expired_among (items : list (string * loc)) : M (list string) :=
  match items with
  | [] => ret []
  | (session_id, session) :: rest =>
      let* expired := _is_session_expired session in
      let* others := expired_among rest in
      ret (if expired then session_id :: others else others)
  end.

(** One round of the loop of [_cleanup_expired_sessions], after its sleep:
    an error is logged and swallowed. *)
Definition _cleanup_expired_sessions_round : M unit :=
  try_except
    (with_session_lock
       (let* items := read (fun w => map_to_list (sessions w)) in
        let* expired_sessions := expired_among items in
        modify (set_sessions (fun m => foldr delete m expired_sessions))))
    (fun _ => ret tt).

End conversation_manager.

(** ** [app/services/openai_service.py] *)

Module openai_service.

(** A request to the provider: it is recorded, and the provider's answer
    (a value or an error) is the outcome of the call. *)
Definition request {A} (answer : Provider -> nat -> provider_call -> result A)
    (c : provider_call) : M A :=
  fun w =>
    (answer (provider w) (length (provider_calls w)) c,
     set_provider_calls (provider_calls w ++ [c]) w).

(** [speed: float = 1.25], in hundredths. *)
Definition default_speed : Z := 125.

(** The handlers pass the result of [get_messages], which can be [None];
    [len(None)] in the first log line then raises. *)
Definition chat_completion (msgs : option (list message)) : M completion :=
  try_except
    (match msgs with
     | None => raise (TypeError "object of type 'NoneType' has no len()")
     | Some msgs =>
         let* model := read (fun w => openai_model (settings w)) in
         let* max_tokens := read (fun w => openai_max_tokens (settings w)) in
         request answer_chat (ChatCompletionsCreate model msgs max_tokens)
     end)
    (fun e => raise e).

Definition transcribe_audio (audio_file : bytes) (filename : string) : M string :=
  try_except
    (let* model := read (fun w => openai_whisper_model (settings w)) in
     request answer_transcription (TranscriptionsCreate model audio_file filename))
    (fun e => raise e).

Definition text_to_speech (text : string) (voice : option string) (speed : Z)
    : M bytes :=
  try_except
    (let* model := read (fun w => openai_tts_model (settings w)) in
     let* tts_voice := read (fun w => openai_tts_voice (settings w)) in
     request answer_speech (SpeechCreate model (or_default voice tts_voice) text speed))
    (fun e => raise e).

End openai_service.

(** ** [app/services/tts_service.py] *)

(** Keyword arguments at a call site. *)
Inductive pyval :=
  | VNone
  | VBool (b : bool)
  | VStr (s : string).

Definition kwarg (name : string) (kwargs : list (string * pyval)) : option pyval :=
  snd <$> find (fun kv => String.eqb (fst kv) name) kwargs.

(** The first keyword that the signature does not have. *)
Definition unexpected_keyword (parameters : list string)
    (kwargs : list (string * pyval)) : option string :=
  fst <$> find (fun kv => negb (existsb (String.eqb (fst kv)) parameters)) kwargs.

Module tts_service.

Definition temp_dir : string := "temp_audio".

Definition _generate_audio_id (text voice : string) : string :=
  md5_hexdigest (encode (text ++ ":" ++ voice)).

Definition _get_audio_path (audio_id : string) : string :=
  temp_dir ++ "/" ++ audio_id ++ ".mp3".

Definition generate_speech (text : string) (voice : option string)
    (use_cache : bool) : M (string * bytes) :=
  try_except
    (let* tts_voice := read (fun w => openai_tts_voice (settings w)) in
     let voice := or_default voice tts_voice in
     let audio_id := _generate_audio_id text voice in
     let audio_path := _get_audio_path audio_id in
     let* cached := read (fun w => temp_audio w !! audio_path) in
     match use_cache, cached with
     | true, Some audio_bytes => ret (audio_id, audio_bytes)
     | _, _ =>
         let* audio_bytes :=
           openai_service.text_to_speech text (Some voice)
             openai_service.default_speed in
         modify (set_temp_audio (fun fs => <[audio_path := audio_bytes]> fs)) >>
         ret (audio_id, audio_bytes)
     end)
    (fun e => raise e).

(** The parameters of [generate_speech] after [self]. *)
Definition generate_speech_parameters : list string :=
  ["text"; "voice"; "use_cache"].

(** A call of [generate_speech] with keywords: Python binds the keywords to
    the parameters of the signature before the body runs, and raises
    [TypeError] for a keyword the signature does not have or for a second
    value for [text]. *)
Definition call_generate_speech (text : string) (kwargs : list (string * pyval))
    : M (string * bytes) :=
  match unexpected_keyword generate_speech_parameters kwargs with
  | Some name =>
      raise (TypeError ("TTSService.generate_speech() got an unexpected keyword argument '"
                        ++ name ++ "'"))
  | None =>
      match kwarg "text" kwargs with
      | Some _ =>
          raise (TypeError "TTSService.generate_speech() got multiple values for argument 'text'")
      | None =>
          let voice :=
            match kwarg "voice" kwargs with
            | Some (VStr s) => Some s
            | _ => None
            end in
          let use_cache :=
            match kwarg "use_cache" kwargs with
            | None => true
            | Some (VBool b) => b
            | Some (VStr s) => negb (String.eqb s "")
            | Some VNone => false
            end in
          generate_speech text voice use_cache
      end
  end.

Definition get_audio (audio_id : string) : M (option bytes) :=
  read (fun w => temp_audio w !! _get_audio_path audio_id).

Definition delete_audio (audio_id : string) : M bool :=
  let* found := read (fun w => temp_audio w !! _get_audio_path audio_id) in
  match found with
  | Some _ =>
      modify (set_temp_audio (fun fs => delete (_get_audio_path audio_id) fs)) >>
      ret true
  | None => ret false
  end.

End tts_service.

(** ** [app/models/schemas.py] *)

Module ChatRequest.
Record t := { message : string; session_id : option string }.
End ChatRequest.

Module ChatResponse.
Record t := {
  response : string;
  session_id : string;
  timestamp : Z;
  tokens_used : option Z
}.
End ChatResponse.

Module VoiceChatResponse.

Record t := {
  transcription : string;
  response : string;
  audio_url : option string;
  session_id : string;
  timestamp : Z
}.

(** The fields the model declares. *)
Definition model_fields : list string :=
  ["transcription"; "response"; "audio_url"; "session_id"; "timestamp"].

Definition required_str (name : string) (kwargs : list (string * pyval)) : M string :=
  match kwarg name kwargs with
  | Some (VStr s) => ret s
  | _ => raise (ValidationError name)
  end.

(** The constructor called with keywords: each declared field is taken from the
    keywords or from its default; the model does not configure [extra], so
    a keyword that is not a declared field is dropped. *)
Definition init (kwargs : list (string * pyval)) : M t :=
  let* transcription := required_str "transcription" kwargs in
  let* response := required_str "response" kwargs in
  let* audio_url :=
    match kwarg "audio_url" kwargs with
    | None | Some VNone => ret None
    | Some (VStr s) => ret (Some s)
    | Some (VBool _) => raise (ValidationError "audio_url")
    end in
  let* session_id := required_str "session_id" kwargs in
  let* timestamp := utcnow in
  ret {| transcription := transcription; response := response;
         audio_url := audio_url; session_id := session_id;
         timestamp := timestamp |}.

(** The fields of the response as it is serialised. *)
Definition model_dump (r : t) : list (string * pyval) :=
  [("transcription", VStr (transcription r));
   ("response", VStr (response r));
   ("audio_url", from_option VStr VNone (audio_url r));
   ("session_id", VStr (session_id r));
   ("timestamp", VStr (pretty (timestamp r)))].

End VoiceChatResponse.

(** ** [app/routes/chat.py] *)

Module chat.


End chat.

(** ** [app/routes/voice.py] *)

Module UploadFile.
Record t := { filename : option string; content : bytes }.
End UploadFile.

Module voice.

Definition supported_suffixes : list string :=
  [".wav"; ".mp3"; ".webm"; ".m4a"; ".ogg"].

Definition voice_chat (audio : UploadFile.t) (session_id : option string)
    : M VoiceChatResponse.t :=
  try_except
    (let audio_bytes := UploadFile.content audio in
     let* ceiling := read (fun w => max_audio_file_size_bytes (settings w)) in
     let* size_mb := read (fun w => max_audio_file_size_mb (settings w)) in
     (if Z.of_nat (length audio_bytes) >? ceiling then
        raise (HTTPException 413
                 ("Audio file too large. Max size: " ++ pretty size_mb ++ "MB"))
      else ret tt) >>
     let* filename :=
       match UploadFile.filename audio with
       | None => raise (AttributeError "'NoneType' object has no attribute 'lower'")
       | Some name => ret name
       end in
     (if negb (endswith_any (lower filename) supported_suffixes) then
        raise (HTTPException 400
                 "Unsupported audio format. Supported: WAV, MP3, WebM, M4A, OGG")
      else ret tt) >>
     let* transcription := openai_service.transcribe_audio audio_bytes filename in
     let* session_id :=
       if truthy session_id then ret (default "" session_id)
       else conversation_manager.create_session in
     let* messages := conversation_manager.get_messages session_id in
     let* session_id :=
       match messages with
       | None =>
           let* session_id := conversation_manager.create_session in
           conversation_manager.get_messages session_id >> ret session_id
       | Some _ => ret session_id
       end in
     conversation_manager.add_message session_id "user" transcription >>
     let* messages := conversation_manager.get_messages session_id in
     let* response := openai_service.chat_completion messages in
     conversation_manager.add_message session_id "assistant"
       (completion_content response) >>
     let* speech :=
       tts_service.call_generate_speech (completion_content response)
         [("use_cache", VBool false); ("persist", VBool false)] in
     let audio_base64 := b64encode (snd speech) in
     let audio_data_uri := ("data:audio/mpeg;base64," ++ audio_base64)%string in
     VoiceChatResponse.init
       [("transcription", VStr transcription);
        ("response", VStr (completion_content response));
        ("audio_url", VNone);
        ("audio_base64", VStr audio_data_uri);
        ("session_id", VStr session_id)])
    (fun e =>
       match e with
       | HTTPException _ _ => raise e
       | _ => raise (HTTPException 500
                       ("Error processing voice chat: " ++ exn_str e))
       end).

(** [POST /api/tts]: the body is sent back as an MPEG attachment. *)
Definition text_to_speech (text : string) (voice : option string) : M bytes :=
  try_except
    (let* speech := tts_service.generate_speech text voice true in
     ret (snd speech))
    (fun e =>
       raise (HTTPException 500 ("Error generating speech: " ++ exn_str e))).

Definition get_audio (audio_id : string) : M bytes :=
  try_except
    (let* audio_bytes := tts_service.get_audio audio_id in
     match audio_bytes with
     | None =>
         raise (HTTPException 404 ("Audio file " ++ audio_id ++ " not found"))
     | Some audio_bytes => ret audio_bytes
     end)
    (fun e =>
       match e with
       | HTTPException _ _ => raise e
       | _ => raise (HTTPException 500 ("Error retrieving audio: " ++ exn_str e))
       end).

End voice.

(** ** A small world to run the handlers in *)

Definition silent_provider : Provider := {|
  answer_chat := fun _ _ => Raise (OpenAIError "Request timed out.");
  answer_transcription := fun _ _ => Raise (OpenAIError "Request timed out.");
  answer_speech := fun _ _ => Raise (OpenAIError "Request timed out.")
|}.

(** A provider that transcribes every upload as "hello", answers every
    chat with "hi" and synthesises two bytes. *)
Definition echo_provider : Provider := {|
  answer_chat := fun _ _ =>
    Ok {| completion_content := "hi"; tokens_used := 7;
          completion_model := "gpt-4o-mini"; finish_reason := "stop" |};
  answer_transcription := fun _ _ => Ok "hello"%string;
  answer_speech := fun _ _ => Ok [Byte.x49; Byte.x44]
|}.

(** The process right after start-up: no session, no audio file.  The
    clock gives the listed readings in order and then stays at the last
    one. *)
Definition boot (cfg : Settings) (p : Provider) (readings : list Z) : World := {|
  settings := cfg;
  SYSTEM_PROMPT := "You are Gangadhar K.";
  sessions := ∅;
  heap := ∅;
  next_loc := 0%nat;
  session_lock := false;
  temp_audio := ∅;
  clock := fun n => default (List.last readings 0) (readings !! n);
  ticks := 0%nat;
  uuid4 := fun n => ("session-" ++ pretty n)%string;
  uuids := 0%nat;
  provider := p;
  provider_calls := []
|}.

Definition with_max_conversation_length (L : Z) (s : Settings) : Settings :=
  {| openai_model := openai_model s; openai_tts_model := openai_tts_model s;
     openai_tts_voice := openai_tts_voice s;
     openai_whisper_model := openai_whisper_model s;
     openai_max_tokens := openai_max_tokens s;
     openai_timeout_seconds := openai_timeout_seconds s;
     max_conversation_length := L;
     session_timeout_seconds := session_timeout_seconds s;
     max_audio_file_size_mb := max_audio_file_size_mb s |}.

(** Running a coroutine for its state, and the history stored for an id. *)
Definition exec {A} (m : M A) (w : World) : World := snd (m w).

Definition outcome {A} (m : M A) (w : World) : result A := fst (m w).

Definition history (session_id : string) (w : World) : option (list message) :=
  (fun ref => messages (heap w !!! ref)) <$> sessions w !! session_id.

(** ** Vocabulary of the properties *)

(** What [_trim_conversation_history] leaves of a message list. *)
Definition trimmed (max_length : Z) (msgs : list message) : list message :=
  if Z.of_nat (length msgs) >? max_length + 1 then
    match msgs with
    | [] => msgs
    | system_message :: _ => system_message :: py_slice_from (- max_length) msgs
    end
  else msgs.

(** The trim policy in the words of the specification: beyond [L + 1]
    messages, the system message followed by the last [L] messages. *)
Definition last_n {A} (n : nat) (l : list A) : list A := drop (length l - n) l.

Definition trim_policy (L : Z) (msgs : list message) : list message :=
  if Z.of_nat (length msgs) >? L + 1 then
    match msgs with
    | [] => msgs
    | system_message :: _ => system_message :: last_n (Z.to_nat L) msgs
    end
  else msgs.

(** The state after one reading of the clock. *)
Definition tick (w : World) : World := set_ticks (S (ticks w)) w.

(** A session is expired at time [now]. *)
Definition expired_at (now : Z) (w : World) (ref : loc) : Prop :=
  now - last_activity (heap w !!! ref) > session_timeout_seconds (settings w) * 1000000.

(** The pinned system message is first in a session's message list. *)
Definition system_first (msgs : list message) : Prop :=
  exists c rest, msgs = {| role := "system"; content := c |} :: rest.

Definition registry_ok (w : World) : Prop :=
  forall session_id ref,
    sessions w !! session_id = Some ref -> system_first (messages (heap w !!! ref)).

(** The operations on the session store, as the handlers and the
    background task issue them.  [OpAppendLocked] is the second lock
    section of an append on its own, for a session reference obtained
    earlier. *)
Inductive manager_op :=
  | OpCreate
  | OpGet (session_id : string)
  | OpGetMessages (session_id : string)
  | OpAppend (session_id role content : string)
  | OpAppendLocked (ref : loc) (session_id role content : string)
  | OpTrim (session_id : string)
  | OpDelete (session_id : string)
  | OpSweep.

Definition run_op (o : manager_op) : M unit :=
  match o with
  | OpCreate => conversation_manager.create_session >> ret tt
  | OpGet session_id => conversation_manager.get_session session_id >> ret tt
  | OpGetMessages session_id =>
      conversation_manager.get_messages session_id >> ret tt
  | OpAppend session_id role content =>
      conversation_manager.add_message session_id role content >> ret tt
  | OpAppendLocked ref session_id role content =>
      conversation_manager.add_message_locked ref session_id role content
  | OpTrim session_id =>
      conversation_manager._trim_conversation_history session_id
  | OpDelete session_id =>
      conversation_manager.delete_session session_id >> ret tt
  | OpSweep => conversation_manager._cleanup_expired_sessions_round
  end.

Definition run_ops (ops : list manager_op) (w : World) : World :=
  foldl (fun w o => exec (run_op o) w) w ops.

(** The session object that [create_session] allocates in [w], and the
    state it leaves. *)
Definition fresh_session (w : World) : session :=
  {| messages := [ {| role := "system"; content := SYSTEM_PROMPT w |} ];
     created_at := clock w (ticks w);
     last_activity := clock w (S (ticks w));
     message_count := 0 |}.

Definition created (w : World) : World :=
  set_sessions (fun m => <[uuid4 w (uuids w) := next_loc w]> m)
    (set_next_loc (S (next_loc w))
       (set_heap (fun h => <[next_loc w := fresh_session w]> h)
          (tick (tick (set_uuids (S (uuids w)) w))))).

(** A session object after the updates of an append, before and after
    trimming. *)
Definition appended (m : message) (now : Z) (s : session) : session :=
  {| messages := messages s ++ [m];
     created_at := created_at s;
     last_activity := now;
     message_count := message_count s + 1 |}.

Definition committed (m : message) (now : Z) (max_length : Z) (s : session)
    : session :=
  {| messages := trimmed max_length (messages s ++ [m]);
     created_at := created_at s;
     last_activity := now;
     message_count := message_count s + 1 |}.

(** The history after appending [ms] one by one to [[system_message]], and
    the coroutine that makes these appends. *)
Definition appended_history (L : Z) (system_message : message) (ms : list message)
    : list message :=
  foldl (fun h m => trimmed L (h ++ [m])) [system_message] ms.

Fixpoint append_all (session_id : string) (ms : list message) : M unit :=
  match ms with
  | [] => ret tt
  | m :: rest =>
      conversation_manager.add_message session_id (role m) (content m) >>
      append_all session_id rest
  end.

(** ** Worlds and requests of the scenarios *)

Definition user_turn (text : string) : message :=
  {| role := "user"; content := text |}.

Definition pinned_prompt : message :=
  {| role := "system"; content := "You are Gangadhar K." |}.

(** One session, created while the clock stands still. *)
Definition one_session (cfg : Settings) (p : Provider) : World :=
  exec conversation_manager.create_session (boot cfg p []).

(** One session, created at time 0; the next reading of the clock is one
    microsecond past the session timeout of an hour. *)
Definition stale_session : World :=
  exec conversation_manager.create_session
    (boot default_settings silent_provider [0; 0; 3600000001]).

(** One session, created at time 0; the clock then reads exactly one hour,
    when the session is still live, and one microsecond more afterwards. *)
Definition session_at_the_edge : World :=
  exec conversation_manager.create_session
    (boot default_settings silent_provider [0; 0; 3600000000; 3600000001]).


Definition wav_upload : UploadFile.t :=
  {| UploadFile.filename := Some "question.wav"; UploadFile.content := [Byte.x52] |}.

Definition with_max_audio_file_size_mb (mb : Z) (s : Settings) : Settings :=
  {| openai_model := openai_model s; openai_tts_model := openai_tts_model s;
     openai_tts_voice := openai_tts_voice s;
     openai_whisper_model := openai_whisper_model s;
     openai_max_tokens := openai_max_tokens s;
     openai_timeout_seconds := openai_timeout_seconds s;
     max_conversation_length := max_conversation_length s;
     session_timeout_seconds := session_timeout_seconds s;
     max_audio_file_size_mb := mb |}.

(** The request of a speech synthesis and the identifier of its audio, as
    [generate_speech] computes them in [w]. *)
Definition speech_request (text : string) (voice : option string) (w : World)
    : provider_call :=
  SpeechCreate (openai_tts_model (settings w))
    (or_default voice (openai_tts_voice (settings w))) text
    openai_service.default_speed.

Definition audio_id_of (text : string) (voice : option string) (w : World) : string :=
  tts_service._generate_audio_id text
    (or_default voice (openai_tts_voice (settings w))).

(** One step of the store: an entry of the registry was there before or
    points at a session with the system message first, and no session
    object loses its system message. *)
Definition step_ok (w w' : World) : Prop :=
  (forall session_id ref,
      sessions w' !! session_id = Some ref ->
      sessions w !! session_id = Some ref \/
      system_first (messages (heap w' !!! ref))) /\
  (forall l,
      system_first (messages (heap w !!! l)) ->
      system_first (messages (heap w' !!! l))).

Definition preserves {A} (m : M A) : Prop := forall w, step_ok w (snd (m w)).

(** A coroutine that ends in an exception from every state. *)
Definition always_raises {A} (m : M A) : Prop :=
  forall w, exists e w', m w = (Raise e, w').


(** ** Further functions of the modelled files *)

(** [ConversationManager.get_session_stats].  The average is a Python
    float; it is kept as the quotient it is computed from. *)
Module session_stats.

Inductive average :=
  | NoSessions
  | Quotient (total sessions : Z).

Record t := {
  active_sessions : Z;
  total_messages : Z;
  avg_messages_per_session : average
}.

Definition sum_message_counts (store : gmap loc session)
    (items : list (string * loc)) : Z :=
  foldl (fun acc item => acc + message_count (store !!! snd item)) 0 items.

Definition get_session_stats : M t :=
  with_session_lock
    (let* reg := read sessions in
     let* store := read heap in
     let total_sessions := Z.of_nat (size reg) in
     let total_messages := sum_message_counts store (map_to_list reg) in
     ret {| active_sessions := total_sessions;
            total_messages := total_messages;
            avg_messages_per_session :=
              if total_sessions >? 0 then Quotient total_messages total_sessions
              else NoSessions |}).

End session_stats.

(** [DELETE /api/session/{session_id}] and
    [GET /api/session/{session_id}/messages] of [app/routes/chat.py]. *)
Module session_routes.

Record listing := {
  listed_session_id : string;
  message_count : Z;
  messages : list message
}.

Record deleted := { message : string; session_id : string }.

Definition delete_session (session_id : string) : M deleted :=
  try_except
    (let* was_deleted := conversation_manager.delete_session session_id in
     if was_deleted then
       ret {| message := "Session deleted successfully"; session_id := session_id |}
     else
       raise (HTTPException 404 ("Session " ++ session_id ++ " not found")))
    (fun e =>
       match e with
       | HTTPException _ _ => raise e
       | _ => raise (HTTPException 500 ("Error deleting session: " ++ exn_str e))
       end).

Definition get_session_messages (session_id : string) : M listing :=
  try_except
    (let* found := conversation_manager.get_messages session_id in
     match found with
     | None =>
         raise (HTTPException 404 ("Session " ++ session_id ++ " not found"))
     | Some msgs =>
         let user_messages :=
           filter (fun msg => role msg <> "system"%string) msgs in
         ret {| listed_session_id := session_id;
                message_count := Z.of_nat (length user_messages);
                messages := user_messages |}
     end)
    (fun e =>
       match e with
       | HTTPException _ _ => raise e
       | _ => raise (HTTPException 500 ("Error retrieving messages: " ++ exn_str e))
       end).

End session_routes.

(** [DELETE /api/audio/{audio_id}] of [app/routes/voice.py]. *)
Module audio_routes.

Record deleted := { message : string; audio_id : string }.

Definition delete_audio (audio_id : string) : M deleted :=
  try_except
    (let* was_deleted := tts_service.delete_audio audio_id in
     if was_deleted then
       ret {| message := "Audio file deleted successfully"; audio_id := audio_id |}
     else
       raise (HTTPException 404 ("Audio file " ++ audio_id ++ " not found")))
    (fun e =>
       match e with
       | HTTPException _ _ => raise e
       | _ => raise (HTTPException 500 ("Error deleting audio: " ++ exn_str e))
       end).

End audio_routes.

(** ** Vocabulary of the further properties *)

(** Every reference of the registry is allocated, and no two ids share a
    session object. *)
Definition store_wf (w : World) : Prop :=
  (forall session_id ref,
      sessions w !! session_id = Some ref -> (ref < next_loc w)%nat) /\
  (forall id1 id2 ref,
      sessions w !! id1 = Some ref -> sessions w !! id2 = Some ref -> id1 = id2).

(** The session stored for an id. *)
Definition stored (session_id : string) (w : World) : option session :=
  (fun ref => heap w !!! ref) <$> sessions w !! session_id.

(** A coroutine keeps a property of the state. *)
Definition keeps (P : World -> Prop) {A} (m : M A) : Prop :=
  forall w, P w -> P (snd (m w)).

(** The operations that a handler or the background task issues as a
    whole: the second lock section of an append never runs on its own. *)
Definition whole_op (o : manager_op) : bool :=
  match o with
  | OpAppendLocked _ _ _ _ => false
  | _ => true
  end.

(** The ids that a sweep finds expired when it examines [items] in order,
    reading the clock once per session from the reading [t] on. *)
Fixpoint expired_from (w : World) (t : nat) (items : list (string * loc))
    : list string :=
  match items with
  | [] => []
  | (session_id, ref) :: rest =>
      if clock w t - last_activity (heap w !!! ref)
         >? session_timeout_seconds (settings w) * 1000000
      then session_id :: expired_from w (S t) rest
      else expired_from w (S t) rest
  end.

(** The state after a sweep round that started with the lock free. *)
Definition swept (w : World) : World :=
  set_sessions
    (fun m => foldr delete m (expired_from w (ticks w) (map_to_list (sessions w))))
    (set_ticks (ticks w + length (map_to_list (sessions w))) w).

(** The session id that an operation addresses in [w]; the sweep
    addresses none. *)
Definition addressed (o : manager_op) (w : World) : option string :=
  match o with
  | OpCreate => Some (uuid4 w (uuids w))
  | OpGet session_id | OpGetMessages session_id | OpAppend session_id _ _
  | OpAppendLocked _ session_id _ _ | OpTrim session_id
  | OpDelete session_id => Some session_id
  | OpSweep => None
  end.

(** A request to the provider that is not a speech synthesis. *)
Definition not_speech (c : provider_call) : Prop :=
  match c with
  | SpeechCreate _ _ _ _ => False
  | _ => True
  end.

(** Since [calls], only such requests were sent, and the audio files are
    [files]. *)
Definition no_synthesis_since (files : gmap string bytes)
    (calls : list provider_call) (w : World) : Prop :=
  temp_audio w = files /\
  exists sent, provider_calls w = calls ++ sent /\ Forall not_speech sent.

(** The characters of a hexadecimal digest. *)
Definition hex_character (c : ascii) : Prop :=
  c ∈ String.list_ascii_of_string "0123456789abcdef".

(** ** Further worlds and requests of the scenarios *)

(** Two sessions, created one after the other while the clock stands
    still. *)
Definition two_sessions : World :=
  exec conversation_manager.create_session (one_session default_settings echo_provider).

(** One session with one user message. *)
Definition greeted_session : World :=
  exec (conversation_manager.add_message "session-0" "user" "hello")
    (one_session default_settings echo_provider).


Definition text_upload : UploadFile.t :=
  {| UploadFile.filename := Some "notes.txt"; UploadFile.content := [Byte.x52] |}.


(** * Properties *)

Import conversation_manager.

#[local] Arguments tts_service._generate_audio_id : simpl never.
#[local] Arguments tts_service._get_audio_path : simpl never.
#[local] Arguments or_default : simpl never.

(** ** The lock and the monad *)

Ltac unfold_setters :=
  unfold tick, set_sessions, set_heap, set_next_loc, set_session_lock,
    set_temp_audio, set_ticks, set_uuids, set_provider_calls in *;
  simpl in *.

Ltac unfold_monad :=
  unfold bind, ret, raise, read, modify, utcnow, new_uuid, try_except in *.

Lemma relock w :
  session_lock w = false ->
  set_session_lock false (set_session_lock true w) = w.
Proof. destruct w; simpl; intros ->; reflexivity. Qed.

Lemma with_session_lock_free {A} (body : M A) w :
  session_lock w = false ->
  with_session_lock body w =
    (fst (body (set_session_lock true w)),
     set_session_lock false (snd (body (set_session_lock true w)))).
Proof.
  intros Hfree. unfold with_session_lock. rewrite Hfree.
  destruct (body (set_session_lock true w)); reflexivity.
Qed.

Lemma with_session_lock_held {A} (body : M A) w :
  session_lock w = true -> with_session_lock body w = (Raise LockHeld, w).
Proof. intros Hheld. unfold with_session_lock. rewrite Hheld. reflexivity. Qed.

Lemma bind_ok {A B} (m : M A) (k : A -> M B) w a w1 :
  m w = (Ok a, w1) -> bind m k w = k a w1.
Proof. intros Hrun. unfold bind. by rewrite Hrun. Qed.


(** ** The expiry-aware lookup *)

Lemma get_session_absent w session_id :
  session_lock w = false ->
  sessions w !! session_id = None ->
  get_session session_id w = (Ok None, w).
Proof.
  intros Hfree Hnone. unfold get_session.
  rewrite with_session_lock_free by done.
  unfold_monad. simpl. rewrite Hnone. simpl. by rewrite relock.
Qed.

Lemma get_session_expired w session_id ref :
  session_lock w = false ->
  sessions w !! session_id = Some ref ->
  expired_at (clock w (ticks w)) w ref ->
  get_session session_id w =
    (Ok None, set_sessions (fun m => delete session_id m) (tick w)).
Proof.
  intros Hfree Hsome Hexp. unfold get_session.
  rewrite with_session_lock_free by done.
  unfold _is_session_expired. unfold_monad. simpl. rewrite Hsome. simpl.
  unfold expired_at in Hexp.
  destruct (Z.gtb_spec (clock w (ticks w) - last_activity (heap w !!! ref))
              (session_timeout_seconds (settings w) * 1000000)); [|lia].
  simpl. unfold tick. destruct w; simpl in *; subst; reflexivity.
Qed.

Lemma get_session_live w session_id ref :
  session_lock w = false ->
  sessions w !! session_id = Some ref ->
  ~ expired_at (clock w (ticks w)) w ref ->
  get_session session_id w = (Ok (Some ref), tick w).
Proof.
  intros Hfree Hsome Hexp. unfold get_session.
  rewrite with_session_lock_free by done.
  unfold _is_session_expired. unfold_monad. simpl. rewrite Hsome. simpl.
  unfold expired_at in Hexp.
  destruct (Z.gtb_spec (clock w (ticks w) - last_activity (heap w !!! ref))
              (session_timeout_seconds (settings w) * 1000000)); [lia|].
  simpl. unfold tick. destruct w; simpl in *; subst; reflexivity.
Qed.

Lemma get_session_stays_absent n : forall w session_id,
  session_lock w = false ->
  sessions w !! session_id = None ->
  Nat.iter n (exec (get_session session_id)) w = w.
Proof.
  induction n as [|n IH]; intros w session_id Hfree Hnone; simpl; [done|].
  rewrite IH by done. unfold exec. by rewrite get_session_absent.
Qed.

(** C6.  A lookup of a session whose last activity is older than the
    session timeout reports the session absent and removes it from the
    registry; the next lookup of the same id, and every one after it,
    reports it absent again and changes nothing. *)
Theorem get_session_evicts_expired w session_id ref :
  session_lock w = false ->
  sessions w !! session_id = Some ref ->
  expired_at (clock w (ticks w)) w ref ->
  let w' := exec (get_session session_id) w in
  outcome (get_session session_id) w = Ok None /\
  sessions w' = delete session_id (sessions w) /\
  sessions w' !! session_id = None /\
  get_session session_id w' = (Ok None, w') /\
  forall n,
    outcome (get_session session_id)
      (Nat.iter n (exec (get_session session_id)) w') = Ok None.
Proof.
  intros Hfree Hsome Hexp w'.
  assert (Hw' : w' = set_sessions (fun m => delete session_id m) (tick w)).
  { subst w'. unfold exec. by rewrite (get_session_expired _ _ ref). }
  assert (Hgone : sessions w' !! session_id = None).
  { rewrite Hw'. apply lookup_delete_eq. }
  assert (Hfree' : session_lock w' = false) by by rewrite Hw'.
  split; [unfold outcome; by rewrite (get_session_expired _ _ ref)|].
  split; [by rewrite Hw'|]. split; [done|].
  split; [by apply get_session_absent|].
  intros n. rewrite get_session_stays_absent by done.
  unfold outcome. by rewrite get_session_absent.
Qed.

(** ** Creating a session and appending to it *)

Lemma create_session_run w :
  session_lock w = false ->
  create_session w = (Ok (uuid4 w (uuids w)), created w).
Proof.
  intros Hfree. unfold create_session, bind at 1. unfold new_uuid at 1.
  unfold bind at 1.
  rewrite with_session_lock_free by (destruct w; done).
  unfold _create_session_data, get_system_prompt, alloc. unfold_monad. simpl.
  f_equal. unfold created, fresh_session, tick.
  destruct w; simpl in *; subst; reflexivity.
Qed.

(** The second lock section, whatever the registry holds for the id. *)
Lemma add_message_locked_run w ref session_id role content :
  session_lock w = false ->
  let m := {| role := role; content := content |} in
  let L := max_conversation_length (settings w) in
  let w1 :=
    set_heap (fun h => <[ref := appended m (clock w (ticks w)) (heap w !!! ref)]> h)
      (tick w) in
  add_message_locked ref session_id role content w =
    match sessions w !! session_id with
    | None => (Ok tt, w1)
    | Some l =>
        let msgs := messages (heap w1 !!! l) in
        if Z.of_nat (length msgs) >? L + 1 then
          match msgs with
          | [] => (Raise (IndexError "list index out of range"), w1)
          | system_message :: _ =>
              (Ok tt,
               set_heap (fun h =>
                 <[l := set_messages (system_message :: py_slice_from (- L) msgs)
                          (h !!! l)]> h) w1)
          end
        else (Ok tt, w1)
    end.
Proof.
  intros Hfree m L w1. subst m L w1.
  unfold add_message_locked, with_session_lock. rewrite Hfree.
  unfold _trim_conversation_history, update_session. unfold_monad.
  destruct w as [cfg prompt reg store nxt lk files clk tk gen drawn prov calls].
  simpl in *; subst. unfold_setters.
  rewrite !lookup_total_insert_eq, !insert_insert_eq. simpl.
  fold (appended {| role := role; content := content |} (clk tk) (store !!! ref)).
  destruct (reg !! session_id) as [l|]; simpl; [|reflexivity].
  destruct (Z.of_nat _ >? _); simpl; [|reflexivity].
  destruct (messages _); reflexivity.
Qed.

Lemma add_message_locked_registered w ref session_id role content :
  session_lock w = false ->
  sessions w !! session_id = Some ref ->
  add_message_locked ref session_id role content w =
    (Ok tt,
     set_heap (fun h =>
       <[ref := committed {| role := role; content := content |}
                  (clock w (ticks w)) (max_conversation_length (settings w))
                  (heap w !!! ref)]> h) (tick w)).
Proof.
  intros Hfree Hreg. rewrite add_message_locked_run by done. rewrite Hreg.
  simpl. rewrite lookup_total_insert_eq. unfold committed, trimmed. simpl.
  destruct (Z.of_nat _ >? _); simpl.
  - destruct (messages (heap w !!! ref) ++ _) as [|system_message others] eqn:Happ.
    { by destruct (messages (heap w !!! ref)). }
    f_equal. destruct w; unfold_setters. f_equal.
    by rewrite lookup_total_insert_eq, insert_insert_eq.
  - reflexivity.
Qed.

Lemma add_message_absent w session_id role content :
  session_lock w = false ->
  sessions w !! session_id = None ->
  add_message session_id role content w = (Ok false, w).
Proof.
  intros Hfree Hnone. unfold add_message, bind.
  by rewrite get_session_absent.
Qed.

Lemma add_message_expired w session_id ref role content :
  session_lock w = false ->
  sessions w !! session_id = Some ref ->
  expired_at (clock w (ticks w)) w ref ->
  add_message session_id role content w =
    (Ok false, set_sessions (fun m => delete session_id m) (tick w)).
Proof.
  intros Hfree Hsome Hexp. unfold add_message, bind.
  by rewrite (get_session_expired _ _ ref).
Qed.

Lemma add_message_live w session_id ref role content :
  session_lock w = false ->
  sessions w !! session_id = Some ref ->
  ~ expired_at (clock w (ticks w)) w ref ->
  add_message session_id role content w =
    (Ok true,
     set_heap (fun h =>
       <[ref := committed {| role := role; content := content |}
                  (clock w (S (ticks w))) (max_conversation_length (settings w))
                  (heap w !!! ref)]> h) (tick (tick w))).
Proof.
  intros Hfree Hsome Hlive. unfold add_message, bind.
  rewrite (get_session_live _ _ ref) by done.
  rewrite add_message_locked_registered by done. reflexivity.
Qed.

Lemma get_messages_absent w session_id :
  session_lock w = false ->
  sessions w !! session_id = None ->
  get_messages session_id w = (Ok None, w).
Proof.
  intros Hfree Hnone. unfold get_messages, bind.
  by rewrite get_session_absent.
Qed.

Lemma get_messages_live w session_id ref :
  session_lock w = false ->
  sessions w !! session_id = Some ref ->
  ~ expired_at (clock w (ticks w)) w ref ->
  get_messages session_id w = (Ok (Some (messages (heap w !!! ref))), tick w).
Proof.
  intros Hfree Hsome Hlive. unfold get_messages, bind.
  by rewrite (get_session_live _ _ ref).
Qed.

(** C5, as the code has it.  An append to an id that is absent from the
    registry returns [False] and changes nothing.  An append to an id
    whose session is expired returns [False], adds no message and creates
    no session, but the lookup it starts with evicts the expired session:
    the registry loses that one entry and keeps every other one. *)
Theorem append_to_missing_session w session_id role content :
  session_lock w = false ->
  (sessions w !! session_id = None \/
   exists ref,
     sessions w !! session_id = Some ref /\
     expired_at (clock w (ticks w)) w ref) ->
  let w' := exec (add_message session_id role content) w in
  outcome (add_message session_id role content) w = Ok false /\
  heap w' = heap w /\
  sessions w' = delete session_id (sessions w) /\
  sessions w' !! session_id = None /\
  (forall other, other <> session_id -> sessions w' !! other = sessions w !! other) /\
  (sessions w !! session_id = None -> w' = w).
Proof.
  intros Hfree Hmissing w'. subst w'. unfold outcome, exec.
  destruct Hmissing as [Hnone|(ref & Hsome & Hexp)].
  - rewrite add_message_absent by done. simpl.
    rewrite delete_id by done. repeat split; done.
  - rewrite (add_message_expired _ _ ref) by done. simpl.
    repeat split; try done.
    + apply lookup_delete_eq.
    + intros other Hother. by apply lookup_delete_ne.
    + congruence.
Qed.

(** ** The trim policy *)

Lemma py_slice_from_last (L : Z) (msgs : list message) :
  0 < L -> py_slice_from (- L) msgs = last_n (Z.to_nat L) msgs.
Proof.
  intros HL. unfold py_slice_from, last_n.
  destruct (Z.ltb_spec (- L) 0); [|lia]. f_equal. lia.
Qed.

Lemma trimmed_policy L msgs : 0 < L -> trimmed L msgs = trim_policy L msgs.
Proof.
  intros HL. unfold trimmed, trim_policy.
  destruct (_ >? _); [|done]. destruct msgs; [done|].
  by rewrite py_slice_from_last.
Qed.

(** With a positive maximum, one append leaves what the policy asks for. *)
Lemma append_obeys_trim_policy w session_id ref role content :
  0 < max_conversation_length (settings w) ->
  session_lock w = false ->
  sessions w !! session_id = Some ref ->
  ~ expired_at (clock w (ticks w)) w ref ->
  outcome (add_message session_id role content) w = Ok true /\
  history session_id (exec (add_message session_id role content) w) =
    Some (trim_policy (max_conversation_length (settings w))
            (messages (heap w !!! ref) ++ [ {| role := role; content := content |} ])).
Proof.
  intros HL Hfree Hsome Hlive. unfold outcome, exec.
  rewrite (add_message_live _ _ ref) by done. simpl. split; [done|].
  unfold history. simpl. rewrite Hsome. simpl.
  rewrite lookup_total_insert_eq. simpl. by rewrite trimmed_policy.
Qed.


Lemma trimmed_snoc_last_n L system_message ms m :
  0 < L ->
  trimmed L ((system_message :: last_n (Z.to_nat L) ms) ++ [m]) =
  system_message :: last_n (Z.to_nat L) (ms ++ [m]).
Proof.
  intros HL. unfold trimmed, py_slice_from, last_n. simpl.
  rewrite !length_app, !length_drop. simpl.
  destruct (Z.ltb_spec (- L) 0) as [_|]; [|lia].
  destruct (Z.gtb_spec
              (Z.of_nat (S (length ms - (length ms - Z.to_nat L) + 1))) (L + 1))
    as [Hgt|Hle].
  - f_equal.
    replace (Z.to_nat (Z.max (- L + Z.of_nat (S (length ms - (length ms - Z.to_nat L) + 1))) 0))
      with 2%nat by lia.
    replace (length ms + 1 - Z.to_nat L)%nat with (S (length ms - Z.to_nat L)) by lia.
    simpl. rewrite !drop_app_le by (rewrite ?length_drop; lia).
    by rewrite drop_drop, Nat.add_1_r.
  - f_equal.
    replace (length ms - Z.to_nat L)%nat with 0%nat by lia.
    by replace (length ms + 1 - Z.to_nat L)%nat with 0%nat by lia.
Qed.

Lemma appended_history_last_L L system_message ms :
  0 < L ->
  appended_history L system_message ms = system_message :: last_n (Z.to_nat L) ms.
Proof.
  intros HL. unfold appended_history.
  induction ms as [|m ms IH] using rev_ind; [done|].
  rewrite foldl_app. simpl. rewrite IH. by apply trimmed_snoc_last_n.
Qed.

Lemma append_all_run ms : forall w session_id ref,
  session_lock w = false ->
  sessions w !! session_id = Some ref ->
  (forall n, clock w n - last_activity (heap w !!! ref)
             <= session_timeout_seconds (settings w) * 1000000) ->
  (forall n k, clock w n - clock w k
               <= session_timeout_seconds (settings w) * 1000000) ->
  outcome (append_all session_id ms) w = Ok tt /\
  history session_id (exec (append_all session_id ms) w) =
    Some (foldl (fun h m => trimmed (max_conversation_length (settings w)) (h ++ [m]))
            (messages (heap w !!! ref)) ms).
Proof.
  induction ms as [|m ms IH]; intros w session_id ref Hfree Hreg Hlive Hspan.
  - unfold outcome, exec, history. simpl. by rewrite Hreg.
  - unfold outcome, exec in *. simpl.
    erewrite bind_ok.
    2:{ apply (add_message_live _ _ ref); [done|done|].
        unfold expired_at. specialize (Hlive (ticks w)). lia. }
    set (w1 := set_heap _ _).
    destruct (IH w1 session_id ref) as [Hout Hhist]; try done.
    + intros n. subst w1. simpl. rewrite lookup_total_insert_eq. simpl. apply Hspan.
    + split; [exact Hout|]. rewrite Hhist. subst w1. simpl.
      rewrite lookup_total_insert_eq. simpl. by destruct m.
Qed.

(** With a positive maximum [L], any run of appends to a fresh session
    that stays live leaves the system message followed by the last [L]
    appended messages, in their order. *)
Lemma appends_keep_last_L w session_id ref system_message ms :
  0 < max_conversation_length (settings w) ->
  session_lock w = false ->
  sessions w !! session_id = Some ref ->
  messages (heap w !!! ref) = [system_message] ->
  (forall n, clock w n - last_activity (heap w !!! ref)
             <= session_timeout_seconds (settings w) * 1000000) ->
  (forall n k, clock w n - clock w k
               <= session_timeout_seconds (settings w) * 1000000) ->
  outcome (append_all session_id ms) w = Ok tt /\
  history session_id (exec (append_all session_id ms) w) =
    Some (system_message
          :: last_n (Z.to_nat (max_conversation_length (settings w))) ms).
Proof.
  intros HL Hfree Hreg Hfresh Hlive Hspan.
  destruct (append_all_run ms w session_id ref) as [Hout Hhist]; try done.
  split; [done|]. rewrite Hhist, Hfresh.
  by rewrite <- (appended_history_last_L _ system_message ms).
Qed.

(** ** The system message stays first *)

Lemma step_ok_refl w : step_ok w w.
Proof. split; auto. Qed.

Lemma step_ok_trans w1 w2 w3 : step_ok w1 w2 -> step_ok w2 w3 -> step_ok w1 w3.
Proof.
  intros [Hs12 Hh12] [Hs23 Hh23]. split.
  - intros session_id ref H3.
    destruct (Hs23 _ _ H3) as [H2|]; [|by right].
    destruct (Hs12 _ _ H2) as [H1|Hsf]; [by left|right; auto].
  - auto.
Qed.

Lemma step_ok_registry w w' : registry_ok w -> step_ok w w' -> registry_ok w'.
Proof.
  intros Hok [Hs Hh] session_id ref H'.
  destruct (Hs _ _ H') as [H|]; [|done]. apply Hh. by apply (Hok session_id).
Qed.

(** A step that only touches fields other than the registry and the heap. *)
Lemma step_ok_same w w' :
  sessions w' = sessions w -> heap w' = heap w -> step_ok w w'.
Proof. intros Hs Hh. split; rewrite ?Hs, ?Hh; auto. Qed.

(** A step that only removes entries. *)
Lemma step_ok_shrink w w' :
  sessions w' ⊆ sessions w -> heap w' = heap w -> step_ok w w'.
Proof.
  intros Hs Hh. split; [|rewrite Hh; auto].
  intros session_id ref H'. left. by eapply lookup_weaken.
Qed.

Lemma preserves_ret {A} (a : A) : preserves (ret a).
Proof. intros w. apply step_ok_refl. Qed.

Lemma preserves_raise {A} e : preserves (@raise A e).
Proof. intros w. apply step_ok_refl. Qed.

Lemma preserves_read {A} (f : World -> A) : preserves (read f).
Proof. intros w. apply step_ok_refl. Qed.

Lemma preserves_utcnow : preserves utcnow.
Proof. intros w. by apply step_ok_same. Qed.

Lemma preserves_new_uuid : preserves new_uuid.
Proof. intros w. by apply step_ok_same. Qed.

Lemma preserves_bind {A B} (m : M A) (k : A -> M B) :
  preserves m -> (forall a, preserves (k a)) -> preserves (bind m k).
Proof.
  intros Hm Hk w. unfold bind. specialize (Hm w).
  destruct (m w) as [[a|e] w1]; simpl in *; [|done].
  eapply step_ok_trans; [exact Hm|apply Hk].
Qed.

Lemma preserves_try_except {A} (body : M A) handler :
  preserves body -> (forall e, preserves (handler e)) ->
  preserves (try_except body handler).
Proof.
  intros Hm Hk w. unfold try_except. specialize (Hm w).
  destruct (body w) as [[a|e] w1]; simpl in *; [done|].
  eapply step_ok_trans; [exact Hm|apply Hk].
Qed.

Lemma preserves_with_session_lock {A} (body : M A) :
  preserves body -> preserves (with_session_lock body).
Proof.
  intros Hm w. unfold with_session_lock.
  destruct (session_lock w); [apply step_ok_refl|].
  specialize (Hm (set_session_lock true w)).
  destruct (body _) as [r w1]; simpl in *.
  eapply step_ok_trans; [|eapply step_ok_trans; [exact Hm|]];
    by apply step_ok_same.
Qed.

Lemma preserves_delete session_id :
  preserves (modify (set_sessions (fun m => delete session_id m))).
Proof.
  intros w. apply step_ok_shrink; [|done]. simpl. apply delete_subseteq.
Qed.

Lemma preserves_delete_all ids :
  preserves (modify (set_sessions (fun m => foldr delete m ids))).
Proof.
  intros w. apply step_ok_shrink; [|done]. simpl.
  induction ids as [|i ids IH]; simpl; [done|].
  etrans; [apply delete_subseteq|exact IH].
Qed.

(** An in-place update that keeps the first message of the session. *)
Lemma preserves_update_session ref (f : session -> session) :
  (forall s, system_first (messages s) -> system_first (messages (f s))) ->
  preserves (update_session ref f).
Proof.
  intros Hf w. split; simpl; [by left|].
  intros l Hl. destruct (decide (l = ref)) as [->|Hne].
  - rewrite lookup_total_insert_eq. by apply Hf.
  - by rewrite lookup_total_insert_ne.
Qed.

Lemma system_first_app msgs m : system_first msgs -> system_first (msgs ++ [m]).
Proof. intros (c & rest & ->). by exists c, (rest ++ [m]). Qed.

Lemma preserves_is_session_expired ref : preserves (_is_session_expired ref).
Proof.
  unfold _is_session_expired.
  repeat (apply preserves_bind; [|intros ?]);
    auto using preserves_read, preserves_utcnow, preserves_ret.
Qed.

Lemma preserves_get_session session_id : preserves (get_session session_id).
Proof.
  unfold get_session. apply preserves_with_session_lock.
  apply preserves_bind; [apply preserves_read|]. intros [ref|]; [|apply preserves_ret].
  apply preserves_bind; [apply preserves_is_session_expired|].
  intros []; [|apply preserves_ret].
  apply preserves_bind; [apply preserves_delete|]. intros _. apply preserves_ret.
Qed.

Lemma preserves_trim session_id : preserves (_trim_conversation_history session_id).
Proof.
  intros w. unfold _trim_conversation_history. unfold_monad.
  destruct (sessions w !! session_id) as [ref|]; simpl; [|apply step_ok_refl].
  destruct (Z.of_nat _ >? _); simpl; [|apply step_ok_refl].
  destruct (messages (heap w !!! ref)) as [|system_message others] eqn:Hmsgs;
    simpl; [apply step_ok_refl|].
  split; simpl; [by left|].
  intros l Hl. destruct (decide (l = ref)) as [->|Hne].
  - rewrite lookup_total_insert_eq. simpl.
    rewrite Hmsgs in Hl. destruct Hl as (c & rest & Heq).
    injection Heq as -> _. by eexists _, _.
  - by rewrite lookup_total_insert_ne.
Qed.

Lemma preserves_add_message_locked ref session_id role content :
  preserves (add_message_locked ref session_id role content).
Proof.
  unfold add_message_locked. apply preserves_with_session_lock.
  apply preserves_bind; [|intros _].
  { apply preserves_update_session. intros s. apply system_first_app. }
  apply preserves_bind; [apply preserves_utcnow|intros now].
  apply preserves_bind; [|intros _].
  { by apply preserves_update_session. }
  apply preserves_bind; [|intros _].
  { by apply preserves_update_session. }
  apply preserves_trim.
Qed.

Lemma preserves_add_message session_id role content :
  preserves (add_message session_id role content).
Proof.
  unfold add_message.
  apply preserves_bind; [apply preserves_get_session|].
  intros [ref|]; [|apply preserves_ret].
  apply preserves_bind; [apply preserves_add_message_locked|].
  intros _. apply preserves_ret.
Qed.

Lemma preserves_get_messages session_id : preserves (get_messages session_id).
Proof.
  unfold get_messages.
  apply preserves_bind; [apply preserves_get_session|].
  intros [ref|]; [apply preserves_read|apply preserves_ret].
Qed.

Lemma preserves_delete_session session_id : preserves (delete_session session_id).
Proof.
  unfold delete_session. apply preserves_with_session_lock.
  apply preserves_bind; [apply preserves_read|]. intros [ref|]; [|apply preserves_ret].
  apply preserves_bind; [apply preserves_delete|]. intros _. apply preserves_ret.
Qed.

Lemma preserves_expired_among items : preserves (expired_among items).
Proof.
  induction items as [|[session_id ref] items IH]; simpl; [apply preserves_ret|].
  apply preserves_bind; [apply preserves_is_session_expired|intros e].
  apply preserves_bind; [exact IH|intros others]. apply preserves_ret.
Qed.

Lemma preserves_cleanup : preserves _cleanup_expired_sessions_round.
Proof.
  unfold _cleanup_expired_sessions_round.
  apply preserves_try_except; [|intros; apply preserves_ret].
  apply preserves_with_session_lock.
  apply preserves_bind; [apply preserves_read|intros items].
  apply preserves_bind; [apply preserves_expired_among|intros ids].
  apply preserves_delete_all.
Qed.

Lemma preserves_create_session : preserves create_session.
Proof.
  unfold create_session.
  apply preserves_bind; [apply preserves_new_uuid|intros session_id].
  apply preserves_bind; [|intros; apply preserves_ret].
  apply preserves_with_session_lock.
  intros w. unfold _create_session_data, get_system_prompt, alloc.
  unfold_monad. simpl. split; simpl.
  - intros i ref. rewrite lookup_insert. case_decide as Hi.
    + intros [= <-]. right. rewrite lookup_total_insert_eq. simpl. by eexists _, _.
    + by left.
  - intros l Hl. destruct (decide (l = next_loc w)) as [->|Hne].
    + rewrite lookup_total_insert_eq. simpl. by eexists _, _.
    + by rewrite lookup_total_insert_ne.
Qed.

Lemma preserves_run_op o : preserves (run_op o).
Proof.
  destruct o; simpl;
    try (apply preserves_bind; [|intros; apply preserves_ret]);
    auto using preserves_create_session, preserves_get_session,
      preserves_get_messages, preserves_add_message,
      preserves_add_message_locked, preserves_trim, preserves_delete_session,
      preserves_cleanup.
Qed.

Lemma preserves_run_ops ops : forall w, registry_ok w -> registry_ok (run_ops ops w).
Proof.
  induction ops as [|o ops IH]; intros w Hok; simpl; [done|].
  apply IH. eapply step_ok_registry; [exact Hok|]. apply preserves_run_op.
Qed.

(** C2.  Whatever operations are run on the store (create, lookup, append,
    the second section of an append on its own, trim, delete, sweep), in
    any order and from any state of the lock, every session in the
    registry has a non-empty message list whose first message has the role
    "system". *)
Theorem system_message_stays_first ops w session_id msgs :
  registry_ok w ->
  history session_id (run_ops ops w) = Some msgs ->
  msgs <> [] /\ role <$> head msgs = Some "system".
Proof.
  intros Hok Hhist. apply (preserves_run_ops ops) in Hok.
  unfold history in Hhist.
  destruct (sessions (run_ops ops w) !! session_id) as [ref|] eqn:Href; [|done].
  simpl in Hhist. injection Hhist as <-.
  destruct (Hok _ _ Href) as (c & rest & ->). done.
Qed.

(** ** The two lock sections of an append *)


(** ** The audio cache *)

Lemma or_default_idem voice d : or_default (Some (or_default voice d)) d = or_default voice d.
Proof.
  unfold or_default. destruct voice as [s|].
  - destruct (String.eqb s "") eqn:Hs; [|by rewrite Hs].
    by destruct (String.eqb d "").
  - by destruct (String.eqb d "").
Qed.

Lemma generate_speech_hit w text voice audio :
  temp_audio w !! tts_service._get_audio_path (audio_id_of text voice w) = Some audio ->
  tts_service.generate_speech text voice true w = (Ok (audio_id_of text voice w, audio), w).
Proof.
  intros Hhit. unfold tts_service.generate_speech. unfold_monad. simpl.
  fold (audio_id_of text voice w). by rewrite Hhit.
Qed.

Lemma generate_speech_synthesizes w text voice use_cache :
  (use_cache = false \/
   temp_audio w !! tts_service._get_audio_path (audio_id_of text voice w) = None) ->
  tts_service.generate_speech text voice use_cache w =
    let c := speech_request text voice w in
    let w1 := set_provider_calls (provider_calls w ++ [c]) w in
    match answer_speech (provider w) (length (provider_calls w)) c with
    | Ok audio =>
        (Ok (audio_id_of text voice w, audio),
         set_temp_audio (fun fs =>
           <[tts_service._get_audio_path (audio_id_of text voice w) := audio]> fs) w1)
    | Raise e => (Raise e, w1)
    end.
Proof.
  intros Hmiss. unfold tts_service.generate_speech, openai_service.text_to_speech,
    openai_service.request, speech_request. unfold_monad. simpl.
  fold (audio_id_of text voice w).
  assert (Hbranch :
    match use_cache, temp_audio w !! tts_service._get_audio_path (audio_id_of text voice w) with
    | true, Some _ => False
    | _, _ => True
    end).
  { destruct Hmiss as [->| ->]; [done|]. by destruct use_cache. }
  destruct use_cache, (temp_audio w !! _); try done; simpl;
    rewrite or_default_idem; by destruct (answer_speech _ _ _).
Qed.

Lemma call_generate_speech_persist w text :
  tts_service.call_generate_speech text
    [("use_cache", VBool false); ("persist", VBool false)] w =
  (Raise (TypeError
     "TTSService.generate_speech() got an unexpected keyword argument 'persist'"), w).
Proof. reflexivity. Qed.

Lemma call_generate_speech_no_cache w text :
  tts_service.call_generate_speech text [("use_cache", VBool false)] w =
  tts_service.generate_speech text None false w.
Proof. reflexivity. Qed.


(** C7.  The identifier that [generate_speech] returns is
    [_generate_audio_id] of the text and the voice (the configured voice
    when none is given) and of nothing else: two calls with the same text
    and voice return the same identifier whatever the state, the provider
    and its answers, the cache flag and the speed of the synthesis, which
    is not an argument of the key.  They therefore share one cache entry:
    a call that uses the cache after an earlier call returns the audio of
    the earlier one and asks the provider nothing. *)
Theorem audio_id_depends_on_text_and_voice w1 w2 text voice uc1 uc2 id1 id2 audio1 audio2 :
  openai_tts_voice (settings w1) = openai_tts_voice (settings w2) ->
  outcome (tts_service.generate_speech text voice uc1) w1 = Ok (id1, audio1) ->
  outcome (tts_service.generate_speech text voice uc2) w2 = Ok (id2, audio2) ->
  id1 = tts_service._generate_audio_id text
          (or_default voice (openai_tts_voice (settings w1))) /\
  id2 = id1 /\
  (temp_audio w2 = temp_audio (exec (tts_service.generate_speech text voice uc1) w1) ->
   uc2 = true ->
   audio2 = audio1 /\
   provider_calls (exec (tts_service.generate_speech text voice uc2) w2) =
     provider_calls w2).
Proof.
  intros Hvoice H1 H2.
  assert (Hid : forall w uc i a,
    outcome (tts_service.generate_speech text voice uc) w = Ok (i, a) ->
    i = audio_id_of text voice w /\
    temp_audio (exec (tts_service.generate_speech text voice uc) w)
      !! tts_service._get_audio_path (audio_id_of text voice w) = Some a).
  { intros w uc i a. unfold outcome, exec.
    destruct uc, (temp_audio w !! tts_service._get_audio_path (audio_id_of text voice w))
      as [cached|] eqn:Hc.
    - rewrite (generate_speech_hit _ _ _ cached) by done. simpl.
      intros [= <- <-]. done.
    - rewrite generate_speech_synthesizes by (by right). simpl.
      destruct (answer_speech _ _ _); simpl; [|done].
      intros [= <- <-]. by rewrite lookup_insert_eq.
    - rewrite generate_speech_synthesizes by (by left). simpl.
      destruct (answer_speech _ _ _); simpl; [|done].
      intros [= <- <-]. by rewrite lookup_insert_eq.
    - rewrite generate_speech_synthesizes by (by left). simpl.
      destruct (answer_speech _ _ _); simpl; [|done].
      intros [= <- <-]. by rewrite lookup_insert_eq. }
  destruct (Hid _ _ _ _ H1) as [-> Hstored].
  destruct (Hid _ _ _ _ H2) as [-> _].
  unfold audio_id_of in *. rewrite <- Hvoice in *.
  split; [done|]. split; [done|].
  intros Hsame ->. rewrite <- Hsame in Hstored.
  unfold outcome, exec in *.
  rewrite (generate_speech_hit _ _ _ audio1) in H2 |- *.
  - simpl in *. split; [congruence|done].
  - unfold audio_id_of. by rewrite <- Hvoice.
  - unfold audio_id_of. by rewrite <- Hvoice.
Qed.

(** ** The voice handler *)

(** C8.  A voice request whose upload is longer than the configured
    ceiling, be it by one byte, ends in the 413 error and leaves the state
    as it was: no call to the provider (transcription, completion or
    synthesis) is made, and no session is touched. *)
Theorem oversized_upload_is_rejected w audio session_id :
  Z.of_nat (length (UploadFile.content audio)) > max_audio_file_size_bytes (settings w) ->
  voice.voice_chat audio session_id w =
    (Raise (HTTPException 413
       ("Audio file too large. Max size: "
        ++ pretty (max_audio_file_size_mb (settings w)) ++ "MB")), w) /\
  provider_calls (exec (voice.voice_chat audio session_id) w) = provider_calls w.
Proof.
  intros Hbig.
  assert (Hrun : voice.voice_chat audio session_id w =
    (Raise (HTTPException 413
       ("Audio file too large. Max size: "
        ++ pretty (max_audio_file_size_mb (settings w)) ++ "MB")), w)).
  { unfold voice.voice_chat, try_except.
    unfold bind at 1. unfold read at 1. unfold bind at 1. unfold read at 1.
    unfold bind at 1.
    destruct (Z.gtb_spec (Z.of_nat (length (UploadFile.content audio)))
                (max_audio_file_size_bytes (settings w))); [|lia].
    reflexivity. }
  split; [exact Hrun|]. unfold exec. by rewrite Hrun.
Qed.

Lemma always_raises_bind_l {A B} (m : M A) (k : A -> M B) :
  always_raises m -> always_raises (bind m k).
Proof.
  intros Hm w. destruct (Hm w) as (e & w' & Hrun).
  exists e, w'. unfold bind. by rewrite Hrun.
Qed.

Lemma always_raises_bind_r {A B} (m : M A) (k : A -> M B) :
  (forall a, always_raises (k a)) -> always_raises (bind m k).
Proof.
  intros Hk w. unfold bind. destruct (m w) as [[a|e] w1]; [apply Hk|by eexists _, _].
Qed.

Lemma voice_chat_body_raises audio session_id :
  exists body handler,
    voice.voice_chat audio session_id = try_except body handler /\
    always_raises body /\
    (forall e w, exists status detail,
        handler e w = (Raise (HTTPException status detail), w)).
Proof.
  eexists _, _. split; [reflexivity|]. split.
  - do 13 (apply always_raises_bind_r; intros ?).
    apply always_raises_bind_l. intros w. eexists _, _.
    apply call_generate_speech_persist.
  - intros e w. destruct e; by eexists _, _.
Qed.

(** C10 on the code.  No voice request succeeds: whatever the upload, the
    session id and the state, the handler ends in an HTTP error.  A
    request that passes the checks, the transcription and the completion
    reaches the call of [generate_speech] with [persist=False], which
    raises [TypeError], and the handler turns that into a 500 error; no
    response with the transcription, the text and the audio is returned. *)
Theorem voice_chat_never_succeeds w audio session_id :
  exists status detail,
    outcome (voice.voice_chat audio session_id) w =
      Raise (HTTPException status detail).
Proof.
  destruct (voice_chat_body_raises audio session_id)
    as (body & handler & -> & Hbody & Hhandler).
  unfold outcome, try_except.
  destruct (Hbody w) as (e & w' & ->).
  destruct (Hhandler e w') as (status & detail & ->). by eexists _, _.
Qed.

(** ** The chat handler *)





(** ** Scenarios *)

(** The scenario of the specification: with a maximum of two, four turns
    leave the system message and the last two turns. *)
Example four_turns_with_max_two :
  let w := one_session (with_max_conversation_length 2 default_settings) echo_provider in
  history "session-0"
    (exec (append_all "session-0"
             [user_turn "turn1"; {| role := "assistant"; content := "turn2" |};
              user_turn "turn3"; {| role := "assistant"; content := "turn4" |}]) w) =
  Some [pinned_prompt; user_turn "turn3"; {| role := "assistant"; content := "turn4" |}].
Proof. vm_compute. reflexivity. Qed.

(** C1 on the code, at [max_conversation_length = 0].  After the first
    append the list has two messages, more than [L + 1 = 1]; the policy
    asks for the system message alone, but the slice [messages[-0:]] is the
    whole list, so the stored history is the system message twice followed
    by the appended message: nothing is discarded. *)
Theorem zero_max_length_keeps_every_message :
  let w := one_session (with_max_conversation_length 0 default_settings) echo_provider in
  let w' := exec (add_message "session-0" "user" "hello") w in
  outcome (add_message "session-0" "user" "hello") w = Ok true /\
  history "session-0" w = Some [pinned_prompt] /\
  history "session-0" w' = Some [pinned_prompt; pinned_prompt; user_turn "hello"] /\
  trim_policy 0 [pinned_prompt; user_turn "hello"] = [pinned_prompt].
Proof. vm_compute. repeat split; reflexivity. Qed.

(** The history keeps growing from there. *)
Example zero_max_length_grows :
  let w := one_session (with_max_conversation_length 0 default_settings) echo_provider in
  length <$> history "session-0"
    (exec (append_all "session-0"
             [user_turn "turn1"; user_turn "turn2"; user_turn "turn3"]) w) = Some 7%nat.
Proof. vm_compute. reflexivity. Qed.

Lemma boot_registry_ok cfg p readings : registry_ok (boot cfg p readings).
Proof. intros session_id ref Hin. simpl in Hin. by rewrite lookup_empty in Hin. Qed.

(** C2 at a run that creates two sessions, appends to the first, sweeps
    and deletes the second. *)
Lemma system_message_stays_first_witness :
  registry_ok (boot default_settings echo_provider []) /\
  [pinned_prompt; user_turn "hello"] <> [] /\
  role <$> head [pinned_prompt; user_turn "hello"] = Some "system".
Proof.
  split; [apply boot_registry_ok|].
  apply (system_message_stays_first
           [OpCreate; OpAppend "session-0" "user" "hello"; OpSweep; OpCreate;
            OpDelete "session-1"; OpTrim "session-0"]
           (boot default_settings echo_provider []) "session-0").
  - apply boot_registry_ok.
  - vm_compute. reflexivity.
Defined.




(** C5 as stated fails for an expired session: the append returns [False]
    and the registry is no longer what it was, the expired entry is gone. *)
Lemma append_to_expired_session_evicts :
  let w' := exec (add_message "session-0" "user" "hello") stale_session in
  outcome (add_message "session-0" "user" "hello") stale_session = Ok false /\
  sessions stale_session !! "session-0" = Some 0%nat /\
  sessions w' !! "session-0" = None /\
  sessions w' <> sessions stale_session.
Proof.
  assert (Hbefore : sessions stale_session !! "session-0" = Some 0%nat)
    by (vm_compute; reflexivity).
  assert (Hafter :
    sessions (exec (add_message "session-0" "user" "hello") stale_session)
      !! "session-0" = None) by (vm_compute; reflexivity).
  split; [vm_compute; reflexivity|]. split; [exact Hbefore|].
  split; [exact Hafter|].
  intros Heq. rewrite Heq in Hafter. congruence.
Qed.

Lemma append_to_missing_session_witness :
  outcome (add_message "session-0" "user" "hello") stale_session = Ok false /\
  sessions (exec (add_message "session-0" "user" "hello") stale_session) =
    delete "session-0" (sessions stale_session).
Proof.
  pose proof (append_to_missing_session stale_session "session-0" "user" "hello"
                eq_refl) as Happly.
  destruct Happly as (Hout & _ & Hsessions & _).
  - right. exists 0%nat. split; vm_compute; reflexivity.
  - split; [exact Hout|exact Hsessions].
Defined.

(** C6 at a session whose last activity is an hour and a microsecond old. *)
Lemma get_session_evicts_expired_witness :
  expired_at (clock stale_session (ticks stale_session)) stale_session 0%nat /\
  outcome (get_session "session-0") stale_session = Ok None /\
  outcome (get_session "session-0")
    (exec (get_session "session-0") stale_session) = Ok None.
Proof.
  assert (Hexpired :
    expired_at (clock stale_session (ticks stale_session)) stale_session 0%nat)
    by (vm_compute; reflexivity).
  pose proof (get_session_evicts_expired stale_session "session-0" 0%nat
                eq_refl eq_refl Hexpired) as (Hout & _ & _ & _ & Hlater).
  split; [exact Hexpired|]. split; [exact Hout|]. exact (Hlater 0%nat).
Defined.

(** C7 at two requests for the text "hi" in the default voice: the second
    one finds the audio of the first. *)
Lemma audio_id_depends_on_text_and_voice_witness :
  let w1 := boot default_settings echo_provider [] in
  let w2 := exec (tts_service.generate_speech "hi" None false) w1 in
  outcome (tts_service.generate_speech "hi" None true) w2 =
    Ok ("46983537ff71c04f672d4c2b96310249", [Byte.x49; Byte.x44]) /\
  "46983537ff71c04f672d4c2b96310249" = tts_service._generate_audio_id "hi" "alloy".
Proof.
  assert (H2 :
    outcome (tts_service.generate_speech "hi" None true)
      (exec (tts_service.generate_speech "hi" None false)
         (boot default_settings echo_provider [])) =
    Ok ("46983537ff71c04f672d4c2b96310249", [Byte.x49; Byte.x44]))
    by (vm_compute; reflexivity).
  assert (H1 :
    outcome (tts_service.generate_speech "hi" None false)
      (boot default_settings echo_provider []) =
    Ok ("46983537ff71c04f672d4c2b96310249", [Byte.x49; Byte.x44]))
    by (vm_compute; reflexivity).
  pose proof (audio_id_depends_on_text_and_voice
                (boot default_settings echo_provider [])
                (exec (tts_service.generate_speech "hi" None false)
                   (boot default_settings echo_provider []))
                "hi" None false true _ _ _ _ eq_refl H1 H2) as (Hid & _).
  split; [exact H2|exact Hid].
Defined.

(** C8 at a ceiling of zero megabytes and an upload of one byte, one byte
    over the ceiling. *)
Lemma oversized_upload_is_rejected_witness :
  let w := boot (with_max_audio_file_size_mb 0 default_settings) echo_provider [] in
  Z.of_nat (length (UploadFile.content wav_upload))
    > max_audio_file_size_bytes (settings w) /\
  voice.voice_chat wav_upload None w =
    (Raise (HTTPException 413 "Audio file too large. Max size: 0MB"), w) /\
  provider_calls (exec (voice.voice_chat wav_upload None) w) = [].
Proof.
  assert (Hbig :
    Z.of_nat (length (UploadFile.content wav_upload))
    > max_audio_file_size_bytes
        (settings (boot (with_max_audio_file_size_mb 0 default_settings)
                     echo_provider []))) by (vm_compute; reflexivity).
  split; [exact Hbig|].
  exact (oversized_upload_is_rejected
           (boot (with_max_audio_file_size_mb 0 default_settings) echo_provider [])
           wav_upload None Hbig).
Defined.



(** C10 on the code, at a one-byte WAV upload without a session id, with a
    provider that answers every call: the handler ends in a 500 error. *)
Example voice_chat_fails_on_persist :
  outcome (voice.voice_chat wav_upload None) (boot default_settings echo_provider []) =
  Raise (HTTPException 500
    "Error processing voice chat: TTSService.generate_speech() got an unexpected keyword argument 'persist'").
Proof. vm_compute. reflexivity. Qed.

(** The response model declares no [audio_base64] field: a response never
    carries one, whatever keywords it is built from. *)
Lemma voice_response_has_no_audio_base64 kwargs w r w' :
  VoiceChatResponse.init kwargs w = (Ok r, w') ->
  kwarg "audio_base64" (VoiceChatResponse.model_dump r) = None /\
  existsb (String.eqb "audio_base64") VoiceChatResponse.model_fields = false.
Proof. intros _. split; reflexivity. Qed.

(** ** The library functions of the embedding on known values *)

Example md5_of_abc :
  md5_hexdigest (encode "abc") = "900150983cd24fb0d6963f7d28e17f72".
Proof. vm_compute. reflexivity. Qed.

Example audio_id_of_hello_alloy :
  tts_service._generate_audio_id "hello" "alloy" = "6909821bb803e521328717c648a31556".
Proof. vm_compute. reflexivity. Qed.

Example b64encode_of_four_bytes : b64encode (encode "abcd") = "YWJjZA==".
Proof. vm_compute. reflexivity. Qed.

Example slice_from_minus_zero : py_slice_from (- 0) [1; 2; 3] = [1; 2; 3].
Proof. reflexivity. Qed.

Example slice_from_minus_two : py_slice_from (- 2) [1; 2; 3] = [2; 3].
Proof. reflexivity. Qed.

(** * Further properties *)

(** ** Deleting a session *)

Lemma delete_session_present w session_id ref :
  session_lock w = false ->
  sessions w !! session_id = Some ref ->
  delete_session session_id w =
    (Ok true, set_sessions (fun m => delete session_id m) w).
Proof.
  intros Hfree Hsome. unfold delete_session.
  rewrite with_session_lock_free by done.
  unfold_monad. simpl. rewrite Hsome. simpl.
  f_equal. destruct w; simpl in *; subst; reflexivity.
Qed.

Lemma delete_session_absent w session_id :
  session_lock w = false ->
  sessions w !! session_id = None ->
  delete_session session_id w = (Ok false, w).
Proof.
  intros Hfree Hnone. unfold delete_session.
  rewrite with_session_lock_free by done.
  unfold_monad. simpl. rewrite Hnone. simpl. by rewrite relock.
Qed.

(** X1.  [delete_session] reports whether the id was registered, removes
    that entry and no other, leaves every session object as it is, and
    makes no expiry check: an expired session is deleted like a live one.
    Deleting the same id again reports [False] and changes nothing. *)
Theorem delete_session_removes_once w session_id :
  session_lock w = false ->
  let w' := exec (delete_session session_id) w in
  outcome (delete_session session_id) w =
    Ok (bool_decide (is_Some (sessions w !! session_id))) /\
  sessions w' = delete session_id (sessions w) /\
  heap w' = heap w /\
  ticks w' = ticks w /\
  delete_session session_id w' = (Ok false, w').
Proof.
  intros Hfree w'. subst w'. unfold outcome, exec.
  destruct (sessions w !! session_id) as [ref|] eqn:Hreg.
  - rewrite (delete_session_present _ _ ref) by done. simpl.
    repeat split; try done.
    apply delete_session_absent; [done|]. simpl. apply lookup_delete_eq.
  - rewrite delete_session_absent by done. simpl.
    rewrite delete_id by done. repeat split; try done.
    by apply delete_session_absent.
Qed.

(** X1 at the one session of a registry. *)
Lemma delete_session_removes_once_witness :
  let w := one_session default_settings echo_provider in
  let w' := exec (delete_session "session-0") w in
  outcome (delete_session "session-0") w =
    Ok (bool_decide (is_Some (sessions w !! "session-0"))) /\
  sessions w' = delete "session-0" (sessions w) /\
  heap w' = heap w /\
  ticks w' = ticks w /\
  delete_session "session-0" w' = (Ok false, w').
Proof.
  apply (delete_session_removes_once
           (one_session default_settings echo_provider) "session-0").
  reflexivity.
Defined.

(** ** A new session *)

(** X2.  [create_session] returns the identifier drawn from the UUID
    generator and registers under it a session that holds the system
    prompt alone, with a message count of zero; unless the clock jumps by
    more than the session timeout between the creation and the lookup,
    [get_messages] of the new id returns exactly that one system message. *)
Theorem created_session_is_readable w :
  session_lock w = false ->
  clock w (S (S (ticks w))) - clock w (S (ticks w))
    <= session_timeout_seconds (settings w) * 1000000 ->
  let session_id := uuid4 w (uuids w) in
  let w' := exec create_session w in
  outcome create_session w = Ok session_id /\
  stored session_id w' =
    Some {| messages := [ {| role := "system"; content := SYSTEM_PROMPT w |} ];
            created_at := clock w (ticks w);
            last_activity := clock w (S (ticks w));
            message_count := 0 |} /\
  outcome (get_messages session_id) w' =
    Ok (Some [ {| role := "system"; content := SYSTEM_PROMPT w |} ]) /\
  sessions (exec (get_messages session_id) w') = sessions w'.
Proof.
  intros Hfree Hclock session_id w'. subst session_id w'.
  unfold outcome, exec. rewrite create_session_run by done. simpl.
  assert (Hreg : sessions (created w) !! uuid4 w (uuids w) = Some (next_loc w)).
  { simpl. apply lookup_insert_eq. }
  assert (Hobj : heap (created w) !!! next_loc w = fresh_session w).
  { simpl. apply lookup_total_insert_eq. }
  split; [done|]. split.
  { unfold stored. rewrite Hreg. simpl. by rewrite lookup_total_insert_eq. }
  rewrite (get_messages_live _ _ (next_loc w)); [|done|exact Hreg|].
  - simpl. rewrite lookup_total_insert_eq. done.
  - unfold expired_at. rewrite Hobj. simpl. lia.
Qed.

(** X2 at start-up. *)
Lemma created_session_is_readable_witness :
  let w := boot default_settings echo_provider [] in
  outcome create_session w = Ok "session-0"%string /\
  outcome (get_messages "session-0") (exec create_session w) =
    Ok (Some [pinned_prompt]).
Proof.
  pose proof (created_session_is_readable (boot default_settings echo_provider []))
    as Happly.
  destruct Happly as (Hid & _ & Hread & _).
  - reflexivity.
  - vm_compute. discriminate.
  - split; [exact Hid|exact Hread].
Defined.

(** ** Properties of the state that coroutines keep *)

Lemma keeps_ret P {A} (a : A) : keeps P (ret a).
Proof. by intros w HP. Qed.

Lemma keeps_raise P {A} e : keeps P (@raise A e).
Proof. by intros w HP. Qed.

Lemma keeps_read P {A} (f : World -> A) : keeps P (read f).
Proof. by intros w HP. Qed.

Lemma keeps_bind P {A B} (m : M A) (k : A -> M B) :
  keeps P m -> (forall a, keeps P (k a)) -> keeps P (bind m k).
Proof.
  intros Hm Hk w HP. unfold bind. specialize (Hm w HP).
  destruct (m w) as [[a|e] w1]; simpl in *; [by apply Hk|done].
Qed.

Lemma keeps_try_except P {A} (body : M A) handler :
  keeps P body -> (forall e, keeps P (handler e)) -> keeps P (try_except body handler).
Proof.
  intros Hm Hk w HP. unfold try_except. specialize (Hm w HP).
  destruct (body w) as [[a|e] w1]; simpl in *; [done|by apply Hk].
Qed.

Lemma keeps_with_session_lock P {A} (body : M A) :
  (forall b w, P w -> P (set_session_lock b w)) ->
  keeps P body -> keeps P (with_session_lock body).
Proof.
  intros Hlock Hm w HP. unfold with_session_lock.
  destruct (session_lock w); [done|].
  specialize (Hm (set_session_lock true w) (Hlock _ _ HP)).
  destruct (body _) as [r w1]; simpl in *. by apply Hlock.
Qed.

Lemma keeps_modify P (f : World -> World) :
  (forall w, P w -> P (f w)) -> keeps P (modify f).
Proof. intros Hf w HP. by apply Hf. Qed.

Lemma keeps_utcnow P :
  (forall n w, P w -> P (set_ticks n w)) -> keeps P utcnow.
Proof. intros Hf w HP. by apply Hf. Qed.

Lemma keeps_new_uuid P :
  (forall n w, P w -> P (set_uuids n w)) -> keeps P new_uuid.
Proof. intros Hf w HP. by apply Hf. Qed.

(** ** References of the registry *)

Lemma store_wf_same w w' :
  sessions w' = sessions w -> next_loc w' = next_loc w ->
  store_wf w -> store_wf w'.
Proof. intros Hs Hn [Hlt Hinj]. split; rewrite ?Hs, ?Hn; done. Qed.

Lemma store_wf_shrink w w' :
  sessions w' ⊆ sessions w -> next_loc w' = next_loc w ->
  store_wf w -> store_wf w'.
Proof.
  intros Hs Hn [Hlt Hinj]. split.
  - intros session_id ref Hin. rewrite Hn. eapply Hlt. by eapply lookup_weaken.
  - intros id1 id2 ref H1 H2. eapply Hinj; by eapply lookup_weaken.
Qed.

Lemma foldr_delete_subseteq (ids : list string) (m : gmap string loc) :
  foldr delete m ids ⊆ m.
Proof.
  induction ids as [|i ids IH]; simpl; [done|].
  etrans; [apply delete_subseteq|exact IH].
Qed.

Ltac keeps_store_wf_leaf :=
  first
    [ apply keeps_ret | apply keeps_raise | apply keeps_read
    | apply keeps_utcnow; intros ? ?; by apply store_wf_same
    | apply keeps_new_uuid; intros ? ?; by apply store_wf_same
    | apply keeps_modify; intros ?; by apply store_wf_same
    | apply keeps_modify; intros ?; apply store_wf_shrink;
      [simpl; first [apply delete_subseteq | apply foldr_delete_subseteq]|done] ].

Ltac keeps_store_wf :=
  repeat first
    [ keeps_store_wf_leaf
    | apply keeps_bind; [|intros ?]
    | apply keeps_try_except; [|intros ?]
    | apply keeps_with_session_lock; [intros ? ?; by apply store_wf_same|]
    | match goal with
      | |- keeps _ (match ?x with _ => _ end) => destruct x
      | |- keeps _ (if ?x then _ else _) => destruct x
      end ].

Lemma keeps_store_wf_expired ref : keeps store_wf (_is_session_expired ref).
Proof. unfold _is_session_expired. keeps_store_wf. Qed.

Lemma keeps_store_wf_get_session session_id : keeps store_wf (get_session session_id).
Proof.
  unfold get_session. keeps_store_wf.
Qed.

Lemma keeps_store_wf_trim session_id :
  keeps store_wf (_trim_conversation_history session_id).
Proof.
  unfold _trim_conversation_history, update_session. keeps_store_wf.
Qed.

Lemma keeps_store_wf_add_message_locked ref session_id role content :
  keeps store_wf (add_message_locked ref session_id role content).
Proof.
  unfold add_message_locked, update_session. keeps_store_wf.
Qed.

Lemma keeps_store_wf_expired_among items : keeps store_wf (expired_among items).
Proof.
  induction items as [|[session_id ref] items IH]; simpl; [apply keeps_ret|].
  apply keeps_bind; [apply keeps_store_wf_expired|intros ?].
  apply keeps_bind; [exact IH|intros ?]. apply keeps_ret.
Qed.

Lemma keeps_store_wf_create_session : keeps store_wf create_session.
Proof.
  unfold create_session.
  apply keeps_bind; [keeps_store_wf|intros session_id].
  apply keeps_bind; [|intros; apply keeps_ret].
  apply keeps_with_session_lock; [intros ? ?; by apply store_wf_same|].
  intros w [Hlt Hinj]. unfold _create_session_data, get_system_prompt, alloc.
  unfold_monad. simpl. split; simpl.
  - intros i ref. rewrite lookup_insert. case_decide.
    + intros [= <-]. lia.
    + intros Hin. specialize (Hlt _ _ Hin). lia.
  - intros id1 id2 ref. rewrite !lookup_insert.
    repeat case_decide; subst; try done.
    + intros [= <-] Hin. specialize (Hlt _ _ Hin). lia.
    + intros Hin [= <-]. specialize (Hlt _ _ Hin). lia.
    + apply Hinj.
Qed.

Lemma keeps_store_wf_run_op o : keeps store_wf (run_op o).
Proof.
  destruct o; simpl.
  - apply keeps_bind; [apply keeps_store_wf_create_session|intros; apply keeps_ret].
  - apply keeps_bind; [apply keeps_store_wf_get_session|intros; apply keeps_ret].
  - apply keeps_bind; [|intros; apply keeps_ret].
    unfold get_messages. keeps_store_wf.
  - apply keeps_bind; [|intros; apply keeps_ret].
    unfold add_message. keeps_store_wf.
  - apply keeps_store_wf_add_message_locked.
  - apply keeps_store_wf_trim.
  - apply keeps_bind; [|intros; apply keeps_ret].
    unfold delete_session. keeps_store_wf.
  - unfold _cleanup_expired_sessions_round.
    apply keeps_try_except; [|intros; apply keeps_ret].
    apply keeps_with_session_lock; [intros ? ?; by apply store_wf_same|].
    apply keeps_bind; [apply keeps_read|intros items].
    apply keeps_bind; [apply keeps_store_wf_expired_among|intros ids].
    keeps_store_wf.
Qed.

Lemma boot_store_wf cfg p readings : store_wf (boot cfg p readings).
Proof. split; simpl; intros *; by rewrite lookup_empty. Qed.

(** X3.  In every state that a run of store operations reaches from a
    state whose registry refers to allocated session objects, no two ids
    sharing one, the registry still does: every reference is allocated
    and distinct ids have distinct session objects.  The empty registry at
    start-up is such a state. *)
Theorem sessions_never_share_an_object ops w id1 id2 ref :
  store_wf w ->
  sessions (run_ops ops w) !! id1 = Some ref ->
  sessions (run_ops ops w) !! id2 = Some ref ->
  id1 = id2 /\ (ref < next_loc (run_ops ops w))%nat.
Proof.
  intros Hwf.
  assert (Hrun : store_wf (run_ops ops w)).
  { revert w Hwf. induction ops as [|o ops IH]; intros w Hwf; simpl; [done|].
    apply IH. by apply keeps_store_wf_run_op. }
  destruct Hrun as [Hlt Hinj]. intros H1 H2. split; [by eapply Hinj|by eapply Hlt].
Qed.

(** X3 at a run that creates two sessions, appends to the first and
    sweeps. *)
Lemma sessions_never_share_an_object_witness :
  let w :=
    run_ops [OpCreate; OpCreate; OpAppend "session-0" "user" "hello"; OpSweep]
      (boot default_settings echo_provider []) in
  sessions w !! "session-1" = Some 1%nat /\ (1 < next_loc w)%nat.
Proof.
  assert (Hreg :
    sessions
      (run_ops [OpCreate; OpCreate; OpAppend "session-0" "user" "hello"; OpSweep]
         (boot default_settings echo_provider [])) !! "session-1" = Some 1%nat)
    by (vm_compute; reflexivity).
  split; [exact Hreg|].
  exact (proj2 (sessions_never_share_an_object
                  [OpCreate; OpCreate; OpAppend "session-0" "user" "hello"; OpSweep]
                  (boot default_settings echo_provider []) "session-1" "session-1"
                  1%nat (boot_store_wf _ _ _) Hreg Hreg)).
Defined.

(** ** The sweep *)

Lemma set_ticks_twice n k w : set_ticks n (set_ticks k w) = set_ticks n w.
Proof. reflexivity. Qed.

Lemma set_ticks_same w : set_ticks (ticks w) w = w.
Proof. by destruct w. Qed.

Lemma expired_among_run items : forall w,
  expired_among items w =
    (Ok (expired_from w (ticks w) items), set_ticks (ticks w + length items) w).
Proof.
  induction items as [|[session_id ref] items IH]; intros w; simpl.
  - unfold ret. by rewrite Nat.add_0_r, set_ticks_same.
  - unfold bind at 1. unfold _is_session_expired. unfold_monad. simpl.
    rewrite IH. simpl.
    assert (Hsame : forall t its,
      expired_from (set_ticks (S (ticks w)) w) t its = expired_from w t its).
    { intros t its. revert t. induction its as [|[i r] its IHits]; intros t; simpl; [done|].
      by rewrite IHits. }
    rewrite Hsame.
    rewrite set_ticks_twice. simpl. by rewrite Nat.add_succ_r.
Qed.

Lemma cleanup_round_run w :
  session_lock w = false ->
  _cleanup_expired_sessions_round w = (Ok tt, swept w).
Proof.
  intros Hfree. unfold _cleanup_expired_sessions_round, try_except.
  rewrite with_session_lock_free by done.
  unfold bind at 1 3. unfold read at 1 2. unfold bind at 1 2.
  rewrite expired_among_run. simpl.
  assert (Hsame : forall t its,
    expired_from (set_session_lock true w) t its = expired_from w t its).
  { intros t its. revert t. induction its as [|[i r] its IHits]; intros t; simpl; [done|].
    by rewrite IHits. }
  rewrite Hsame. unfold modify, swept. simpl. f_equal.
  destruct w; simpl in *; subst; reflexivity.
Qed.





(** ** Store operations never fail *)

Lemma expired_at_dec now w ref : {expired_at now w ref} + {~ expired_at now w ref}.
Proof. unfold expired_at. apply Z_gt_dec. Qed.

Lemma get_session_result w session_id :
  session_lock w = false ->
  exists found w',
    get_session session_id w = (Ok found, w') /\
    session_lock w' = false /\
    match found with
    | Some ref =>
        sessions w !! session_id = Some ref /\ w' = tick w /\
        ~ expired_at (clock w (ticks w)) w ref
    | None => heap w' = heap w
    end.
Proof.
  intros Hfree. destruct (sessions w !! session_id) as [ref|] eqn:Hreg.
  - destruct (expired_at_dec (clock w (ticks w)) w ref) as [Hexp|Hlive].
    + eexists None, _. by rewrite (get_session_expired _ _ ref).
    + eexists (Some ref), _. by rewrite (get_session_live _ _ ref).
  - eexists None, _. by rewrite get_session_absent.
Qed.

Lemma add_message_locked_succeeds w ref session_id role content :
  session_lock w = false ->
  registry_ok w ->
  exists w',
    add_message_locked ref session_id role content w = (Ok tt, w') /\
    session_lock w' = false.
Proof.
  intros Hfree Hok. rewrite add_message_locked_run by done.
  destruct (sessions w !! session_id) as [l|] eqn:Hl; simpl; [|by eexists].
  destruct (Z.of_nat _ >? _); [|by eexists].
  destruct (messages (<[ref:=_]> (heap w) !!! l)) as [|first others] eqn:Hmsgs;
    [|by eexists].
  exfalso. destruct (decide (l = ref)) as [->|Hne].
  - rewrite lookup_total_insert_eq in Hmsgs. simpl in Hmsgs.
    by destruct (messages (heap w !!! ref)).
  - rewrite lookup_total_insert_ne in Hmsgs by done.
    destruct (Hok _ _ Hl) as (c & rest & Heq). congruence.
Qed.

Lemma run_op_succeeds o w :
  session_lock w = false ->
  registry_ok w ->
  outcome (run_op o) w = Ok tt /\ session_lock (exec (run_op o) w) = false.
Proof.
  intros Hfree Hok. unfold outcome, exec.
  destruct o as [|session_id|session_id|session_id role content|ref session_id role content|session_id|session_id|];
    simpl.
  - erewrite bind_ok by (by apply create_session_run). done.
  - destruct (get_session_result w session_id Hfree) as (found & w' & Hrun & Hfree' & _).
    erewrite bind_ok by exact Hrun. done.
  - destruct (get_session_result w session_id Hfree) as (found & w' & Hrun & Hfree' & _).
    unfold get_messages. destruct found as [ref|].
    + erewrite bind_ok.
      2:{ erewrite bind_ok by exact Hrun. reflexivity. }
      done.
    + erewrite bind_ok.
      2:{ erewrite bind_ok by exact Hrun. reflexivity. }
      done.
  - destruct (get_session_result w session_id Hfree)
      as (found & w' & Hrun & Hfree' & Hfound).
    unfold add_message. destruct found as [ref|].
    + destruct Hfound as (Hreg & -> & _).
      destruct (add_message_locked_succeeds (tick w) ref session_id role content)
        as (w2 & Hrun2 & Hfree2); [done|by apply Hok|].
      erewrite bind_ok.
      2:{ erewrite bind_ok by exact Hrun. simpl. erewrite bind_ok by exact Hrun2. reflexivity. }
      done.
    + erewrite bind_ok.
      2:{ erewrite bind_ok by exact Hrun. reflexivity. }
      done.
  - destruct (add_message_locked_succeeds w ref session_id role content)
      as (w2 & Hrun2 & Hfree2); [done|done|].
    by rewrite Hrun2.
  - unfold _trim_conversation_history. unfold_monad.
    destruct (sessions w !! session_id) as [ref|] eqn:Hreg; simpl; [|done].
    destruct (_ >? _); simpl; [|done].
    destruct (Hok _ _ Hreg) as (c & rest & ->). done.
  - destruct (sessions w !! session_id) as [ref|] eqn:Hreg.
    + erewrite bind_ok by (by apply (delete_session_present _ _ ref)). done.
    + erewrite bind_ok by (by apply delete_session_absent). done.
  - by rewrite cleanup_round_run.
Qed.

(** X5.  From a state with the lock free and the system message first in
    every registered session, every store operation returns normally and
    leaves the lock free; so in every state that a run of operations
    reaches, the lock is free and the next operation, whichever it is,
    returns normally: no operation raises and none leaves the lock held. *)
Theorem store_operations_never_fail ops w o :
  session_lock w = false ->
  registry_ok w ->
  session_lock (run_ops ops w) = false /\
  outcome (run_op o) (run_ops ops w) = Ok tt /\
  session_lock (exec (run_op o) (run_ops ops w)) = false.
Proof.
  intros Hfree Hok.
  assert (Hrun : session_lock (run_ops ops w) = false /\ registry_ok (run_ops ops w)).
  { revert w Hfree Hok. induction ops as [|o' ops IH]; intros w Hfree Hok; simpl; [done|].
    apply IH.
    - by apply run_op_succeeds.
    - eapply step_ok_registry; [exact Hok|]. apply preserves_run_op. }
  destruct Hrun as [Hfree' Hok']. split; [done|]. by apply run_op_succeeds.
Qed.

(** X5 at an append to a session that was deleted. *)
Lemma store_operations_never_fail_witness :
  let w :=
    run_ops [OpCreate; OpDelete "session-0"] (boot default_settings echo_provider []) in
  session_lock w = false /\
  outcome (run_op (OpAppend "session-0" "user" "hello")) w = Ok tt /\
  session_lock (exec (run_op (OpAppend "session-0" "user" "hello")) w) = false.
Proof.
  apply (store_operations_never_fail
           [OpCreate; OpDelete "session-0"]
           (boot default_settings echo_provider [])
           (OpAppend "session-0" "user" "hello")).
  - reflexivity.
  - apply boot_registry_ok.
Defined.

(** ** Sessions do not interfere *)

Lemma stored_other_insert w session_id other ref s :
  store_wf w ->
  sessions w !! session_id = Some ref ->
  other <> session_id ->
  stored other (set_heap (fun h => <[ref := s]> h) w) = stored other w.
Proof.
  intros [_ Hinj] Hreg Hother. unfold stored. simpl.
  destruct (sessions w !! other) as [r|] eqn:Hr; simpl; [|done].
  rewrite lookup_total_insert_ne; [done|].
  intros <-. apply Hother. by eapply Hinj.
Qed.

Lemma stored_tick session_id w : stored session_id (tick w) = stored session_id w.
Proof. done. Qed.

(** X6.  A store operation that addresses one session id (create for the
    id it draws, lookup, append, trim, delete) leaves the session stored
    under every other id exactly as it was: its messages, counters and
    timestamps, and whether it is registered. *)
Theorem operations_leave_other_sessions o w session_id other :
  session_lock w = false ->
  store_wf w ->
  whole_op o = true ->
  addressed o w = Some session_id ->
  other <> session_id ->
  stored other (exec (run_op o) w) = stored other w.
Proof.
  intros Hfree Hwf Hwhole Haddr Hother. unfold exec.
  destruct o; simpl in *; try done;
    [injection Haddr as <-|injection Haddr as ->..].
  - erewrite bind_ok by (by apply create_session_run). simpl.
    unfold stored. simpl. rewrite lookup_insert_ne by done.
    destruct (sessions w !! other) as [r|] eqn:Hr; simpl; [|done].
    rewrite lookup_total_insert_ne; [done|].
    destruct Hwf as [Hlt _]. specialize (Hlt _ _ Hr). lia.
  - destruct (get_session_result w session_id Hfree) as (found & w' & Hrun & _ & Hfound).
    erewrite bind_ok by exact Hrun. simpl.
    destruct (sessions w !! session_id) as [ref|] eqn:Hreg.
    + destruct (expired_at_dec (clock w (ticks w)) w ref) as [Hexp|Hlive].
      * rewrite (get_session_expired _ _ ref) in Hrun by done.
        injection Hrun as <- <-. unfold stored. simpl.
        by rewrite lookup_delete_ne.
      * rewrite (get_session_live _ _ ref) in Hrun by done. by injection Hrun as <- <-.
    + rewrite get_session_absent in Hrun by done. by injection Hrun as <- <-.
  - destruct (sessions w !! session_id) as [ref|] eqn:Hreg.
    + destruct (expired_at_dec (clock w (ticks w)) w ref) as [Hexp|Hlive].
      * unfold get_messages.
        erewrite bind_ok.
        2:{ erewrite bind_ok by (by apply (get_session_expired _ _ ref)). reflexivity. }
        simpl. unfold stored. simpl. by rewrite lookup_delete_ne.
      * erewrite bind_ok by (by apply (get_messages_live _ _ ref)). done.
    + erewrite bind_ok by (by apply get_messages_absent). done.
  - destruct (sessions w !! session_id) as [ref|] eqn:Hreg.
    + destruct (expired_at_dec (clock w (ticks w)) w ref) as [Hexp|Hlive].
      * erewrite bind_ok by (by apply (add_message_expired _ _ ref)).
        simpl. unfold stored. simpl. by rewrite lookup_delete_ne.
      * erewrite bind_ok by (by apply (add_message_live _ _ ref)). simpl.
        by apply (stored_other_insert (tick (tick w)) session_id other ref).
    + erewrite bind_ok by (by apply add_message_absent). done.
  - unfold _trim_conversation_history. unfold_monad.
    destruct (sessions w !! session_id) as [ref|] eqn:Hreg; simpl; [|done].
    destruct (_ >? _); simpl; [|done].
    destruct (messages (heap w !!! ref)); simpl; [done|].
    by apply (stored_other_insert w session_id other ref).
  - destruct (sessions w !! session_id) as [ref|] eqn:Hreg.
    + erewrite bind_ok by (by apply (delete_session_present _ _ ref)).
      simpl. unfold stored. simpl. by rewrite lookup_delete_ne.
    + erewrite bind_ok by (by apply delete_session_absent). done.
Qed.

(** X6 at two sessions, the first of which is deleted. *)
Lemma operations_leave_other_sessions_witness :
  stored "session-1" (exec (run_op (OpDelete "session-0")) two_sessions) =
    stored "session-1" two_sessions.
Proof.
  apply (operations_leave_other_sessions
           (OpDelete "session-0") two_sessions "session-0" "session-1").
  - reflexivity.
  - do 2 apply keeps_store_wf_create_session. apply boot_store_wf.
  - reflexivity.
  - reflexivity.
  - discriminate.
Defined.

(** ** The counter and the length of the history *)





(** ** Reading a session *)

Lemma iter_tick_state w :
  session_lock w = false ->
  forall j,
    session_lock (Nat.iter j tick w) = false /\
    sessions (Nat.iter j tick w) = sessions w /\
    heap (Nat.iter j tick w) = heap w /\
    settings (Nat.iter j tick w) = settings w /\
    clock (Nat.iter j tick w) = clock w /\
    ticks (Nat.iter j tick w) = (ticks w + j)%nat.
Proof.
  intros Hfree j. induction j as [|j (H1 & H2 & H3 & H4 & H5 & H6)]; simpl.
  - rewrite Nat.add_0_r. done.
  - rewrite H6, Nat.add_succ_r. done.
Qed.

Lemma reads_only_tick n : forall w session_id ref,
  session_lock w = false ->
  sessions w !! session_id = Some ref ->
  (forall k, (k < n)%nat -> ~ expired_at (clock w (ticks w + k)) w ref) ->
  Nat.iter n (exec (get_messages session_id)) w = Nat.iter n tick w.
Proof.
  induction n as [|n IH]; intros w session_id ref Hfree Hreg Hlive; simpl; [done|].
  rewrite (IH w session_id ref) by (try done; intros k Hk; apply Hlive; lia).
  destruct (iter_tick_state w Hfree n) as (H1 & H2 & H3 & H4 & H5 & H6).
  unfold exec. rewrite (get_messages_live _ _ ref); [done|done|by rewrite H2|].
  unfold expired_at. rewrite H3, H4, H5, H6. apply Hlive. lia.
Qed.

(** X8.  Reading a live session returns its messages and changes nothing
    but the clock reading it consumes: it does not renew [last_activity].
    So a session that is only read, however often, is reported absent and
    evicted by the first read that comes later than the timeout after its
    last append. *)
Theorem reads_do_not_keep_a_session_alive n w session_id ref :
  session_lock w = false ->
  sessions w !! session_id = Some ref ->
  (forall k, (k < n)%nat -> ~ expired_at (clock w (ticks w + k)) w ref) ->
  expired_at (clock w (ticks w + n)) w ref ->
  let w' := Nat.iter n (exec (get_messages session_id)) w in
  stored session_id w' = stored session_id w /\
  outcome (get_messages session_id) w' = Ok None /\
  sessions (exec (get_messages session_id) w') !! session_id = None.
Proof.
  intros Hfree Hreg Hlive Hexp w'. subst w'.
  rewrite (reads_only_tick n w session_id ref) by done.
  destruct (iter_tick_state w Hfree n) as (H1 & H2 & H3 & H4 & H5 & H6).
  split; [unfold stored; by rewrite H2, H3|].
  unfold outcome, exec, get_messages.
  erewrite bind_ok.
  2:{ apply (get_session_expired _ _ ref); [done|by rewrite H2|].
      unfold expired_at. by rewrite H3, H4, H5, H6. }
  simpl. split; [done|]. apply lookup_delete_eq.
Qed.

(** X8 at a session that is read once at exactly one hour of inactivity
    and again a microsecond later. *)
Lemma reads_do_not_keep_a_session_alive_witness :
  let w' := Nat.iter 1 (exec (get_messages "session-0")) session_at_the_edge in
  stored "session-0" w' = stored "session-0" session_at_the_edge /\
  outcome (get_messages "session-0") w' = Ok None /\
  sessions (exec (get_messages "session-0") w') !! "session-0" = None.
Proof.
  apply (reads_do_not_keep_a_session_alive 1 session_at_the_edge "session-0" 0%nat).
  - reflexivity.
  - vm_compute. reflexivity.
  - intros [|k] Hk; [vm_compute; discriminate|lia].
  - vm_compute. reflexivity.
Defined.

(** ** Statistics *)

Lemma get_session_stats_run w :
  session_lock w = false ->
  session_stats.get_session_stats w =
    (Ok {| session_stats.active_sessions := Z.of_nat (size (sessions w));
           session_stats.total_messages :=
             session_stats.sum_message_counts (heap w) (map_to_list (sessions w));
           session_stats.avg_messages_per_session :=
             if Z.of_nat (size (sessions w)) >? 0 then
               session_stats.Quotient
                 (session_stats.sum_message_counts (heap w) (map_to_list (sessions w)))
                 (Z.of_nat (size (sessions w)))
             else session_stats.NoSessions |}, w).
Proof.
  intros Hfree. unfold session_stats.get_session_stats.
  rewrite with_session_lock_free by done. unfold_monad. simpl.
  by rewrite relock.
Qed.







Lemma get_session_stats_empty w :
  session_lock w = false ->
  sessions w = ∅ ->
  session_stats.get_session_stats w =
    (Ok {| session_stats.active_sessions := 0;
           session_stats.total_messages := 0;
           session_stats.avg_messages_per_session := session_stats.NoSessions |}, w).
Proof.
  intros Hfree Hempty. rewrite get_session_stats_run by done.
  by rewrite Hempty, map_to_list_empty, map_size_empty.
Qed.

(** ** The session routes *)

(** X10.  [DELETE /api/session/{id}] answers with the confirmation when
    the id is registered, be the session live or expired, and removes the
    entry; it answers 404 when the id is not registered, and then changes
    nothing. *)
Theorem delete_route_answers w session_id :
  session_lock w = false ->
  let w' := exec (session_routes.delete_session session_id) w in
  (forall ref,
     sessions w !! session_id = Some ref ->
     outcome (session_routes.delete_session session_id) w =
       Ok {| session_routes.message := "Session deleted successfully";
             session_routes.session_id := session_id |} /\
     sessions w' = delete session_id (sessions w)) /\
  (sessions w !! session_id = None ->
   outcome (session_routes.delete_session session_id) w =
     Raise (HTTPException 404 ("Session " ++ session_id ++ " not found")) /\
   w' = w).
Proof.
  intros Hfree w'. subst w'.
  unfold outcome, exec, session_routes.delete_session, try_except. split.
  - intros ref Hreg.
    erewrite bind_ok by (by apply (delete_session_present _ _ ref)). done.
  - intros Hnone. erewrite bind_ok by (by apply delete_session_absent). done.
Qed.

(** X10 at a registered id and at an id that never was. *)
Lemma delete_route_answers_witness :
  let w := one_session default_settings echo_provider in
  (outcome (session_routes.delete_session "session-0") w =
     Ok {| session_routes.message := "Session deleted successfully";
           session_routes.session_id := "session-0" |} /\
   sessions (exec (session_routes.delete_session "session-0") w) =
     delete "session-0" (sessions w)) /\
  outcome (session_routes.delete_session "session-9") w =
    Raise (HTTPException 404 ("Session " ++ "session-9" ++ " not found")) /\
  exec (session_routes.delete_session "session-9") w = w.
Proof.
  split.
  - apply (proj1 (delete_route_answers
                    (one_session default_settings echo_provider) "session-0" eq_refl)
             0%nat).
    vm_compute. reflexivity.
  - apply (proj2 (delete_route_answers
                    (one_session default_settings echo_provider) "session-9" eq_refl)).
    vm_compute. reflexivity.
Defined.

Lemma filter_no_system (msgs : list message) :
  Forall (fun msg => role msg <> "system"%string)
    (filter (fun msg => role msg <> "system"%string) msgs).
Proof. apply Forall_forall. by intros msg [? _]%list_elem_of_filter. Qed.

Lemma filter_user_turns (rest : list message) :
  Forall (fun msg => role msg <> "system"%string) rest ->
  filter (fun msg => role msg <> "system"%string) rest = rest.
Proof.
  induction 1 as [|msg rest Hmsg _ IH]; [done|].
  by rewrite filter_cons_True, IH.
Qed.

(** X11.  [GET /api/session/{id}/messages] answers 404 for an id that is
    not registered, changing nothing, and for an expired session, which
    the read evicts.  For a live session it lists the stored messages
    without those of role "system", in their order, with their number as
    [message_count]; when the system message is the only one of that role,
    the listing is the history after it. *)
Theorem messages_route_answers w session_id :
  session_lock w = false ->
  let w' := exec (session_routes.get_session_messages session_id) w in
  let not_found :=
    Raise (HTTPException 404 ("Session " ++ session_id ++ " not found")) in
  (sessions w !! session_id = None ->
   outcome (session_routes.get_session_messages session_id) w = not_found /\ w' = w) /\
  (forall ref,
     sessions w !! session_id = Some ref ->
     expired_at (clock w (ticks w)) w ref ->
     outcome (session_routes.get_session_messages session_id) w = not_found /\
     sessions w' = delete session_id (sessions w)) /\
  (forall ref,
     sessions w !! session_id = Some ref ->
     ~ expired_at (clock w (ticks w)) w ref ->
     exists listing,
       outcome (session_routes.get_session_messages session_id) w = Ok listing /\
       w' = tick w /\
       session_routes.listed_session_id listing = session_id /\
       session_routes.messages listing =
         filter (fun msg => role msg <> "system"%string) (messages (heap w !!! ref)) /\
       session_routes.message_count listing =
         Z.of_nat (length (session_routes.messages listing)) /\
       Forall (fun msg => role msg <> "system"%string)
         (session_routes.messages listing) /\
       (forall first rest,
          messages (heap w !!! ref) = first :: rest ->
          role first = "system"%string ->
          Forall (fun msg => role msg <> "system"%string) rest ->
          session_routes.messages listing = rest)).
Proof.
  intros Hfree w' not_found. subst w' not_found.
  unfold outcome, exec, session_routes.get_session_messages, try_except.
  split; [|split].
  - intros Hnone. erewrite bind_ok by (by apply get_messages_absent). done.
  - intros ref Hreg Hexp. unfold get_messages.
    erewrite bind_ok.
    2:{ erewrite bind_ok by (by apply (get_session_expired _ _ ref)). reflexivity. }
    done.
  - intros ref Hreg Hlive.
    erewrite bind_ok by (by apply (get_messages_live _ _ ref)).
    eexists. simpl. repeat split; try done.
    + apply filter_no_system.
    + intros first rest -> Hfirst Hrest.
      rewrite filter_cons_False by (by intros Hne; apply Hne).
      by apply filter_user_turns.
Qed.

(** X11 at a session with one user message. *)
Lemma messages_route_answers_witness :
  exists listing,
    outcome (session_routes.get_session_messages "session-0") greeted_session =
      Ok listing /\
    session_routes.listed_session_id listing = "session-0"%string /\
    session_routes.messages listing = [user_turn "hello"] /\
    session_routes.message_count listing = 1.
Proof.
  pose proof (messages_route_answers greeted_session "session-0" eq_refl)
    as (_ & _ & Hlive).
  destruct (Hlive 0%nat) as (listing & Hout & _ & Hid & _ & Hcount & _ & Hrest).
  - vm_compute. reflexivity.
  - vm_compute. discriminate.
  - assert (Hmsgs : session_routes.messages listing = [user_turn "hello"]).
    { apply (Hrest pinned_prompt [user_turn "hello"]).
      - vm_compute. reflexivity.
      - reflexivity.
      - repeat constructor. discriminate. }
    exists listing. split; [exact Hout|]. split; [exact Hid|]. split; [exact Hmsgs|].
    rewrite Hcount, Hmsgs. reflexivity.
Defined.

(** ** Audio files *)

Lemma string_length_app (s t : string) :
  String.length (s ++ t) = (String.length s + String.length t)%nat.
Proof. induction s as [|c s IH]; simpl; [done|]. by rewrite IH. Qed.




(** ** The audio routes *)



(** X15.  [GET /api/audio/{id}] returns the stored bytes, or answers 404
    when no file is stored under the id, and never changes anything.
    [DELETE /api/audio/{id}] answers 404 in that case, changing nothing,
    and otherwise removes the file, after which the same GET answers
    404. *)
Theorem audio_routes_answer w audio_id :
  let detail := ("Audio file " ++ audio_id ++ " not found")%string in
  let w' := exec (audio_routes.delete_audio audio_id) w in
  exec (voice.get_audio audio_id) w = w /\
  (temp_audio w !! tts_service._get_audio_path audio_id = None ->
   outcome (voice.get_audio audio_id) w = Raise (HTTPException 404 detail) /\
   outcome (audio_routes.delete_audio audio_id) w = Raise (HTTPException 404 detail) /\
   w' = w) /\
  (forall audio,
     temp_audio w !! tts_service._get_audio_path audio_id = Some audio ->
     outcome (voice.get_audio audio_id) w = Ok audio /\
     outcome (audio_routes.delete_audio audio_id) w =
       Ok {| audio_routes.message := "Audio file deleted successfully";
             audio_routes.audio_id := audio_id |} /\
     outcome (voice.get_audio audio_id) w' = Raise (HTTPException 404 detail)).
Proof.
  intros detail w'. subst detail w'.
  unfold outcome, exec, voice.get_audio, audio_routes.delete_audio,
    tts_service.get_audio, tts_service.delete_audio.
  unfold_monad. simpl.
  destruct (temp_audio w !! tts_service._get_audio_path audio_id) as [stored|] eqn:Hfile;
    simpl.
  - split; [done|]. split; [done|]. intros audio [= ->].
    rewrite lookup_delete_eq. done.
  - split; [done|]. split; [done|]. done.
Qed.

(** X15 at the audio of the text "hi", stored and then deleted. *)
Lemma audio_routes_answer_witness :
  let w :=
    exec (tts_service.generate_speech "hi" None false)
      (boot default_settings echo_provider []) in
  let audio_id := audio_id_of "hi" None w in
  let w' := exec (audio_routes.delete_audio audio_id) w in
  outcome (voice.get_audio audio_id) w = Ok [Byte.x49; Byte.x44] /\
  outcome (audio_routes.delete_audio audio_id) w =
    Ok {| audio_routes.message := "Audio file deleted successfully";
          audio_routes.audio_id := audio_id |} /\
  outcome (voice.get_audio audio_id) w' =
    Raise (HTTPException 404 ("Audio file " ++ audio_id ++ " not found")).
Proof.
  pose proof (audio_routes_answer
                (exec (tts_service.generate_speech "hi" None false)
                   (boot default_settings echo_provider []))
                (audio_id_of "hi" None
                   (exec (tts_service.generate_speech "hi" None false)
                      (boot default_settings echo_provider []))))
    as (_ & _ & Hstored).
  apply (Hstored [Byte.x49; Byte.x44]).
  vm_compute. reflexivity.
Defined.

(** ** A successful turn *)




(** ** A turn that opens a session *)

Lemma truthy_false_cases (o : option string) :
  truthy o = false -> o = None \/ o = Some ""%string.
Proof.
  destruct o as [s|]; simpl; [|by left]. destruct (String.eqb_spec s ""); [|done].
  subst. by right.
Qed.



(** ** The voice handler, further *)

(** X18.  A voice request whose upload is within the size ceiling but has
    no file name ends in a 500 error, and one whose file name, lowered,
    does not end in .wav, .mp3, .webm, .m4a or .ogg ends in the 400 error;
    in both cases nothing is changed and the provider is not called. *)
Theorem unsupported_upload_is_rejected w audio session_id :
  Z.of_nat (length (UploadFile.content audio)) <= max_audio_file_size_bytes (settings w) ->
  (UploadFile.filename audio = None ->
   voice.voice_chat audio session_id w =
     (Raise (HTTPException 500
        "Error processing voice chat: 'NoneType' object has no attribute 'lower'"), w)) /\
  (forall name,
     UploadFile.filename audio = Some name ->
     endswith_any (lower name) voice.supported_suffixes = false ->
     voice.voice_chat audio session_id w =
       (Raise (HTTPException 400
          "Unsupported audio format. Supported: WAV, MP3, WebM, M4A, OGG"), w)).
Proof.
  intros Hsize.
  assert (Hle : (Z.of_nat (length (UploadFile.content audio))
                 >? max_audio_file_size_bytes (settings w)) = false).
  { destruct (Z.gtb_spec (Z.of_nat (length (UploadFile.content audio)))
                (max_audio_file_size_bytes (settings w))); [lia|done]. }
  split.
  - intros Hname. unfold voice.voice_chat, try_except.
    unfold bind at 1. unfold read at 1. unfold bind at 1. unfold read at 1.
    unfold bind at 1. rewrite Hle. unfold ret at 1.
    unfold bind at 1. rewrite Hname. reflexivity.
  - intros name Hname Hsuffix. unfold voice.voice_chat, try_except.
    unfold bind at 1. unfold read at 1. unfold bind at 1. unfold read at 1.
    unfold bind at 1. rewrite Hle. unfold ret at 1.
    unfold bind at 1. rewrite Hname. unfold ret at 1.
    unfold bind at 1. rewrite Hsuffix. reflexivity.
Qed.

(** X18 at an upload named notes.txt. *)
Lemma unsupported_upload_is_rejected_witness :
  let w := boot default_settings echo_provider [] in
  voice.voice_chat text_upload None w =
    (Raise (HTTPException 400
       "Unsupported audio format. Supported: WAV, MP3, WebM, M4A, OGG"), w).
Proof.
  pose proof (unsupported_upload_is_rejected
                (boot default_settings echo_provider []) text_upload None)
    as Happly.
  destruct Happly as (_ & Hsuffix).
  - vm_compute. discriminate.
  - apply (Hsuffix "notes.txt"%string); reflexivity.
Defined.

Ltac keeps_by_conversion :=
  repeat first
    [ apply keeps_ret | apply keeps_raise | apply keeps_read
    | apply keeps_utcnow; intros ? ? HP; exact HP
    | apply keeps_new_uuid; intros ? ? HP; exact HP
    | apply keeps_modify; intros ? HP; exact HP
    | apply keeps_with_session_lock; [intros ? ? HP; exact HP|]
    | apply keeps_bind; [|intros ?]
    | apply keeps_try_except; [|intros ?]
    | match goal with
      | |- keeps _ (match ?x with _ => _ end) => destruct x
      | |- keeps _ (if ?x then _ else _) => destruct x
      end ].

Lemma keeps_no_synthesis_request {A} files calls
    (answer : Provider -> nat -> provider_call -> result A) c :
  not_speech c ->
  keeps (no_synthesis_since files calls) (openai_service.request answer c).
Proof.
  intros Hc w (Hfiles & sent & Hsent & Hall). split; [done|].
  exists (sent ++ [c]). simpl. rewrite Hsent, app_assoc. split; [done|].
  apply Forall_app. split; [done|]. by apply Forall_singleton.
Qed.

Lemma keeps_no_synthesis_trim files calls session_id :
  keeps (no_synthesis_since files calls) (_trim_conversation_history session_id).
Proof. unfold _trim_conversation_history, update_session. keeps_by_conversion. Qed.

Lemma keeps_no_synthesis_get_session files calls session_id :
  keeps (no_synthesis_since files calls) (get_session session_id).
Proof. unfold get_session, _is_session_expired. keeps_by_conversion. Qed.

Lemma keeps_no_synthesis_get_messages files calls session_id :
  keeps (no_synthesis_since files calls) (get_messages session_id).
Proof.
  unfold get_messages.
  apply keeps_bind; [apply keeps_no_synthesis_get_session|intros [ref|]];
    keeps_by_conversion.
Qed.

Lemma keeps_no_synthesis_add_message files calls session_id role content :
  keeps (no_synthesis_since files calls) (add_message session_id role content).
Proof.
  unfold add_message.
  apply keeps_bind; [apply keeps_no_synthesis_get_session|intros [ref|]];
    [|apply keeps_ret].
  apply keeps_bind; [|intros; apply keeps_ret].
  unfold add_message_locked, update_session.
  apply keeps_with_session_lock; [intros ? ? HP; exact HP|].
  do 4 (apply keeps_bind; [keeps_by_conversion|intros ?]).
  apply keeps_no_synthesis_trim.
Qed.

Lemma keeps_no_synthesis_create_session files calls :
  keeps (no_synthesis_since files calls) create_session.
Proof.
  unfold create_session, _create_session_data, get_system_prompt.
  apply keeps_bind; [keeps_by_conversion|intros session_id].
  apply keeps_bind; [|intros; apply keeps_ret].
  apply keeps_with_session_lock; [intros ? ? HP; exact HP|].
  apply keeps_bind; [keeps_by_conversion|intros data].
  apply keeps_bind; [|intros ref; keeps_by_conversion].
  intros w HP. exact HP.
Qed.

Lemma keeps_no_synthesis_voice_chat files calls audio session_id :
  keeps (no_synthesis_since files calls) (voice.voice_chat audio session_id).
Proof.
  unfold voice.voice_chat.
  apply keeps_try_except; [|intros e; destruct e; apply keeps_raise].
  apply keeps_bind; [apply keeps_read|intros ceiling].
  apply keeps_bind; [apply keeps_read|intros size_mb].
  apply keeps_bind; [destruct (_ >? _); [apply keeps_raise|apply keeps_ret]|intros _].
  apply keeps_bind;
    [destruct (UploadFile.filename audio); [apply keeps_ret|apply keeps_raise]
    |intros filename].
  apply keeps_bind; [destruct (negb _); [apply keeps_raise|apply keeps_ret]|intros _].
  apply keeps_bind; [|intros transcription].
  { unfold openai_service.transcribe_audio.
    apply keeps_try_except; [|intros; apply keeps_raise].
    apply keeps_bind; [apply keeps_read|intros model].
    by apply keeps_no_synthesis_request. }
  apply keeps_bind; [|intros id1].
  { destruct (truthy session_id);
      [apply keeps_ret|apply keeps_no_synthesis_create_session]. }
  apply keeps_bind; [apply keeps_no_synthesis_get_messages|intros found].
  apply keeps_bind; [|intros id2].
  { destruct found; [apply keeps_ret|].
    apply keeps_bind; [apply keeps_no_synthesis_create_session|intros id3].
    apply keeps_bind; [apply keeps_no_synthesis_get_messages|intros; apply keeps_ret]. }
  apply keeps_bind; [apply keeps_no_synthesis_add_message|intros _].
  apply keeps_bind; [apply keeps_no_synthesis_get_messages|intros msgs].
  apply keeps_bind; [|intros response].
  { unfold openai_service.chat_completion.
    apply keeps_try_except; [|intros; apply keeps_raise].
    destruct msgs; [|apply keeps_raise].
    apply keeps_bind; [apply keeps_read|intros model].
    apply keeps_bind; [apply keeps_read|intros max_tokens].
    by apply keeps_no_synthesis_request. }
  apply keeps_bind; [apply keeps_no_synthesis_add_message|intros _].
  apply keeps_bind; [apply keeps_raise|intros speech].
  unfold VoiceChatResponse.init. keeps_by_conversion.
Qed.

(** X19.  Whatever the upload, the session id and the state, a voice
    request writes, replaces or removes no audio file, and the requests it
    sends to the provider are transcriptions and completions only: it
    never asks for a speech synthesis. *)
Theorem voice_chat_never_synthesizes w audio session_id :
  let w' := exec (voice.voice_chat audio session_id) w in
  temp_audio w' = temp_audio w /\
  exists sent,
    provider_calls w' = provider_calls w ++ sent /\ Forall not_speech sent.
Proof.
  apply (keeps_no_synthesis_voice_chat (temp_audio w) (provider_calls w)).
  split; [done|]. exists []. by rewrite app_nil_r.
Qed.



(** ** The audio identifier *)

Lemma hexdigest_length bs : String.length (hexdigest bs) = (2 * length bs)%nat.
Proof. induction bs as [|b bs IH]; simpl; [done|]. rewrite IH. lia. Qed.

Lemma md5_digest_length msg : length (md5_digest msg) = 16%nat.
Proof.
  unfold md5_digest. destruct (md5_chunks _ _ _) as [[[a b] c] d].
  rewrite length_map, !length_app. reflexivity.
Qed.

Lemma hex_digit_hex z : 0 <= z < 16 -> hex_character (hex_digit z).
Proof.
  intros Hz. unfold hex_character.
  assert (Hcases : z = 0 \/ z = 1 \/ z = 2 \/ z = 3 \/ z = 4 \/ z = 5 \/ z = 6
                   \/ z = 7 \/ z = 8 \/ z = 9 \/ z = 10 \/ z = 11 \/ z = 12
                   \/ z = 13 \/ z = 14 \/ z = 15) by lia.
  clear Hz.
  repeat (destruct Hcases as [->|Hcases];
          [vm_compute;
           repeat first [apply list_elem_of_here | apply list_elem_of_further]|]).
  subst. vm_compute.
  repeat first [apply list_elem_of_here | apply list_elem_of_further].
Qed.

Lemma byte_to_Z_range b : 0 <= byte_to_Z b < 256.
Proof.
  unfold byte_to_Z. pose proof (Byte.to_N_bounded b) as Hb. lia.
Qed.

Lemma hexdigest_hex bs :
  Forall hex_character (String.list_ascii_of_string (hexdigest bs)).
Proof.
  induction bs as [|b bs IH]; simpl; [constructor|].
  pose proof (byte_to_Z_range b) as Hb.
  constructor; [apply hex_digit_hex|constructor; [apply hex_digit_hex|exact IH]].
  - split; [apply Z.div_pos; lia|apply Z.div_lt_upper_bound; lia].
  - apply Z.mod_pos_bound. lia.
Qed.

(** X21.  The identifier of an audio, for every text and voice, is a
    string of 32 characters, each a digit or a letter from a to f; the
    file of the audio is therefore always a direct child of the audio
    directory, with a name of 36 characters. *)
Theorem audio_id_is_a_hex_digest text voice :
  let audio_id := tts_service._generate_audio_id text voice in
  String.length audio_id = 32%nat /\
  Forall hex_character (String.list_ascii_of_string audio_id) /\
  tts_service._get_audio_path audio_id = ("temp_audio/" ++ audio_id ++ ".mp3")%string /\
  String.length (tts_service._get_audio_path audio_id) = 47%nat.
Proof.
  intros audio_id. subst audio_id.
  unfold tts_service._generate_audio_id, md5_hexdigest.
  assert (Hlen : String.length (hexdigest (md5_digest (encode (text ++ ":" ++ voice)))) = 32%nat).
  { by rewrite hexdigest_length, md5_digest_length. }
  split; [exact Hlen|]. split; [apply hexdigest_hex|]. split; [reflexivity|].
  unfold tts_service._get_audio_path, tts_service.temp_dir.
  rewrite !string_length_app, Hlen. reflexivity.
Qed.



(** ** What was appended is read back *)

Lemma last_trimmed L msgs m : 0 <= L -> last (trimmed L (msgs ++ [m])) = Some m.
Proof.
  intros HL. unfold trimmed.
  destruct (_ >? _); [|apply last_snoc].
  destruct (msgs ++ [m]) as [|first others] eqn:Happ; [by destruct msgs|].
  rewrite <- Happ. unfold py_slice_from.
  set (start := Z.to_nat _).
  assert (Hstart : (start <= length msgs)%nat).
  { subst start. rewrite length_app. simpl.
    destruct (Z.ltb_spec (- L) 0); lia. }
  rewrite drop_app_le by done.
  change (first :: drop start msgs ++ [m]) with ((first :: drop start msgs) ++ [m]).
  apply last_snoc.
Qed.

Lemma head_trimmed L first rest : head (trimmed L (first :: rest)) = Some first.
Proof. unfold trimmed. by destruct (_ >? _). Qed.

(** X23.  With a maximum length that is not negative, a message appended
    to a live session is the last message that [get_messages] returns
    right afterwards, and the first message is still the one that was
    first before: trimming removes neither. *)
Theorem appended_message_is_read_back w session_id ref role content first rest :
  0 <= max_conversation_length (settings w) ->
  session_lock w = false ->
  sessions w !! session_id = Some ref ->
  messages (heap w !!! ref) = first :: rest ->
  ~ expired_at (clock w (ticks w)) w ref ->
  clock w (S (S (ticks w))) - clock w (S (ticks w))
    <= session_timeout_seconds (settings w) * 1000000 ->
  let w' := exec (add_message session_id role content) w in
  exists msgs,
    outcome (add_message session_id role content) w = Ok true /\
    outcome (get_messages session_id) w' = Ok (Some msgs) /\
    last msgs = Some {| role := role; content := content |} /\
    head msgs = Some first.
Proof.
  intros HL Hfree Hreg Hmsgs Hlive Hclock w'. subst w'. unfold outcome, exec.
  rewrite (add_message_live _ _ ref) by done. simpl.
  rewrite (get_messages_live _ _ ref); [|done|done|].
  - simpl. rewrite lookup_total_insert_eq. simpl. eexists.
    split; [done|]. split; [done|]. split; [by apply last_trimmed|].
    rewrite Hmsgs. apply head_trimmed.
  - unfold expired_at. simpl. rewrite lookup_total_insert_eq. simpl. lia.
Qed.

(** X23 at the first append to a session. *)
Lemma appended_message_is_read_back_witness :
  let w := one_session default_settings echo_provider in
  let w' := exec (add_message "session-0" "user" "hello") w in
  exists msgs,
    outcome (add_message "session-0" "user" "hello") w = Ok true /\
    outcome (get_messages "session-0") w' = Ok (Some msgs) /\
    last msgs = Some (user_turn "hello") /\
    head msgs = Some pinned_prompt.
Proof.
  apply (appended_message_is_read_back
           (one_session default_settings echo_provider) "session-0" 0%nat
           "user" "hello" pinned_prompt []).
  - vm_compute. discriminate.
  - reflexivity.
  - vm_compute. reflexivity.
  - vm_compute. reflexivity.
  - vm_compute. discriminate.
  - vm_compute. discriminate.
Defined.
